(** * gradio.chat_interface: the handlers and event wiring of ChatInterface

    A shallow embedding of [src/gradio/chat_interface.py].  Python list
    objects live in a store and are passed by reference, so that in-place
    mutation ([append], [pop]) and copying ([h[:-1]], [h + [...]]) are
    told apart.  Handlers run in a small monad with the store, a log of
    the invocations of the user's response function, exceptions and
    generator suspension points. *)

From stdpp Require Import base option list strings.

Local Open Scope string_scope.
Local Open Scope list_scope.

(** ** Python values *)

(** [str | None]: messages, responses, textbox and staged-input values. *)
Definition Str := option string.

(** One turn [[user_message, bot_response]].  The inner two-element lists
    are never mutated by this file, so a turn is kept as a value. *)
Definition Turn : Type := Str * Str.

(** The contents of a history list object. *)
Definition History := list Turn.

(** A reference to a list object: its allocation index in the store. *)
Definition loc := nat.

(** Truthiness of [str | None], and Python's [message or ""]. *)
Definition truthy (x : Str) : bool :=
  match x with
  | Some s => negb (String.eqb s "")
  | None => false
  end.

Definition or_empty (x : Str) : Str :=
  if truthy x then x else Some "".

(** ** The store *)

(** The arguments of one invocation of the response function: the message
    and the contents of the history list that was passed. *)
Definition Call : Type := Str * History.

Record World := MkWorld {
  heap : list History;   (* the list objects allocated so far *)
  calls : list Call      (* invocations of [self.fn], oldest first *)
}.

Inductive Exn := IndexError | StopIteration | Dangling.

(** The outcome of running a function or generator body: its result or
    the exception that escaped, the values it yielded (each with the store
    at that suspension point) and the store at the end. *)
Record Run (Y A : Type) := Ran {
  res : Exn + A;
  out : list (Y * World);
  world : World
}.
Arguments Ran {Y A} _ _ _.
Arguments res {Y A} _.
Arguments out {Y A} _.
Arguments world {Y A} _.

Definition M (Y A : Type) := World -> Run Y A.

Definition ret {Y A} (a : A) : M Y A := fun w => Ran (inr a) [] w.

Definition raise {Y A} (e : Exn) : M Y A := fun w => Ran (inl e) [] w.

Definition bind {Y A B} (m : M Y A) (k : A -> M Y B) : M Y B :=
  fun w =>
    let r := m w in
    match res r with
    | inl e => Ran (inl e) (out r) (world r)
    | inr a => let r' := k a (world r) in
               Ran (res r') (out r ++ out r') (world r')
    end.

Declare Scope py_scope.
Delimit Scope py_scope with py.
Notation "x ← y ; z" := (bind y (fun x => z))
  (at level 20, y at level 100, z at level 200, only parsing) : py_scope.
Notation "' x ← y ; z" := (bind y (fun x => z))
  (at level 20, x pattern, y at level 100, z at level 200, only parsing)
  : py_scope.
Notation "x ;; z" := (bind x (fun _ => z))
  (at level 100, z at level 200, only parsing, right associativity)
  : py_scope.
Local Open Scope py_scope.

(** [try: body except exn: handler]; other exceptions pass through. *)
Definition try_except {Y A} (body : M Y A) (exn : Exn -> bool)
    (handler : M Y A) : M Y A :=
  fun w =>
    let r := body w in
    match res r with
    | inl e =>
        if exn e then
          let r' := handler (world r) in
          Ran (res r') (out r ++ out r') (world r')
        else r
    | inr _ => r
    end.

(** [yield y]: a suspension point; the consumer sees [y] and the store. *)
Definition yield {Y} (y : Y) : M Y unit := fun w => Ran (inr tt) [(y, w)] w.

Definition is_IndexError (e : Exn) : bool :=
  match e with IndexError => true | _ => false end.

Definition is_StopIteration (e : Exn) : bool :=
  match e with StopIteration => true | _ => false end.

(** *** List objects *)

(** A list display or any other expression that builds a new list. *)
Definition new_list {Y} (H : History) : M Y loc :=
  fun w => Ran (inr (length (heap w))) []
               (MkWorld (heap w ++ [H]) (calls w)).

Definition contents {Y} (l : loc) : M Y History :=
  fun w =>
    match heap w !! l with
    | Some H => Ran (inr H) [] w
    | None => Ran (inl Dangling) [] w
    end.

Definition store {Y} (l : loc) (H : History) : M Y unit :=
  fun w => Ran (inr tt) [] (MkWorld (<[l := H]> (heap w)) (calls w)).

(** [l.append(t)]: in place. *)
Definition list_append {Y} (l : loc) (t : Turn) : M Y unit :=
  H ← contents l; store l (H ++ [t]).

(** [l.pop()]: in place; [IndexError] on the empty list. *)
Definition list_pop {Y} (l : loc) : M Y Turn :=
  H ← contents l;
  match last H with
  | Some t => store l (removelast H);; ret t
  | None => raise IndexError
  end.

(** [l[:-1]]: a new list without the last element (empty stays empty). *)
Definition slice_init {Y} (l : loc) : M Y loc :=
  H ← contents l; new_list (removelast H).

(** [l + [t]]: a new list. *)
Definition list_add {Y} (l : loc) (t : Turn) : M Y loc :=
  H ← contents l; new_list (H ++ [t]).

(** *** The response function and its generators *)

Definition log_call {Y} (c : Call) : M Y unit :=
  fun w => Ran (inr tt) [] (MkWorld (heap w) (calls w ++ [c])).

(** [self.fn(message, history)]: the function is given the list object and
    is assumed to read it without mutating it, so it is a function of the
    list's contents; the call is logged.  For a generator function [R] is
    the finite sequence the generator will produce. *)
Definition invoke {Y R} (fn : Str -> History -> R) (message : Str)
    (history : loc) : M Y R :=
  H ← contents history;
  log_call (message, H);;
  ret (fn message H).

(** A generator object of the response function: what it has yet to
    produce.  Single-pass: [next] hands back the advanced generator. *)
Definition Generator := list Str.

Definition next {Y} (g : Generator) : M Y (Str * Generator) :=
  match g with
  | r :: g' => ret (r, g')
  | [] => raise StopIteration
  end.

(** [for response in generator: body]. *)
Fixpoint for_in {Y} (g : Generator) (body : Str -> M Y unit) : M Y unit :=
  match g with
  | [] => ret tt
  | response :: g' => body response;; for_in g' body
  end.

(** ** The handlers of [ChatInterface] *)

(** A handler that returns (and yields nothing). *)
Definition Fun (A : Type) := M Empty_set A.

(** A generator handler: it yields its updates. *)
Definition Gen (Y : Type) := M Y unit.

Definition _clear_and_save_textbox (message : Str) : Fun (Str * Str) :=
  ret (Some "", message).

Definition _display_input (message : Str) (history : loc)
    : Fun (loc * loc) :=
  list_append history (message, None);;
  ret (history, history).

Definition _delete_prev_fn (history : loc) : Fun (loc * Str * loc) :=
  message ← try_except
              ('(message, _) ← list_pop history; ret message)
              is_IndexError
              (ret (Some ""));
  ret (history, or_empty message, history).

Section SingleShot.
  (** [self.fn] when it is not a generator function. *)
Variable fn : Str -> History -> Str.

Definition _submit_fn (message : Str) (history_with_input : loc)
      : Fun (loc * loc) :=
    history ← slice_init history_with_input;
    response ← invoke fn message history;
    list_append history (message, response);;
    ret (history, history).

Definition _api_submit_fn (message : Str) (history : loc)
      : Fun (Str * loc) :=
    response ← invoke fn message history;
    list_append history (message, response);;
    ret (response, history).

Definition _examples_fn (message : Str) : Fun loc :=
    empty ← new_list [];
    response ← invoke fn message empty;
    new_list [(message, response)].
End SingleShot.

Section Streaming.
  (** [self.fn] when it is a generator function. *)
Variable fn : Str -> History -> Generator.

Definition _stream_fn (message : Str) (history_with_input : loc)
      : Gen (loc * loc) :=
    history ← slice_init history_with_input;
    generator ← invoke fn message history;
    generator ← try_except
                  ('(first_response, generator) ← next generator;
                   update ← list_add history (message, first_response);
                   yield (update, update);;
                   ret generator)
                  is_StopIteration
                  (update ← list_add history (message, None);
                   yield (update, update);;
                   ret generator);
    for_in generator (fun response =>
      update ← list_add history (message, response);
      yield (update, update)).

Definition _api_stream_fn (message : Str) (history : loc)
      : Gen (Str * loc) :=
    generator ← invoke fn message history;
    generator ← try_except
                  ('(first_response, generator) ← next generator;
                   updated ← list_add history (message, first_response);
                   yield (first_response, updated);;
                   ret generator)
                  is_StopIteration
                  (updated ← list_add history (message, None);
                   yield (None, updated);;
                   ret generator);
    for_in generator (fun response =>
      updated ← list_add history (message, response);
      yield (response, updated)).

Definition _examples_stream_fn (message : Str) : Gen loc :=
    empty ← new_list [];
    generator ← invoke fn message empty;
    for_in generator (fun response =>
      update ← new_list [(message, response)];
      yield update).
End Streaming.

(** What a consumer reads through a yielded reference at the suspension
    point where it was yielded. *)
Definition deref (w : World) (l : loc) : option History := heap w !! l.

Definition seen_pair (yw : (loc * loc) * World) : option History * option History :=
  (deref yw.2 yw.1.1, deref yw.2 yw.1.2).

Definition seen_api (yw : (Str * loc) * World) : Str * option History :=
  (yw.1.1, deref yw.2 yw.1.2).

Definition seen_list (yw : loc * World) : option History :=
  deref yw.2 yw.1.

(** ** The interface object *)

(** [self.fn] with what [inspect.isgeneratorfunction] says about it. *)
Inductive ResponseFn :=
  | Plain (fn : Str -> History -> Str)
  | GeneratorFn (fn : Str -> History -> Generator).

(** The buttons are [true] when present and [false] when [None]. *)
Record ChatInterface := MkChatInterface {
  fn : ResponseFn;
  submit_btn : bool;
  stop_btn : bool;
  retry_btn : bool;
  undo_btn : bool;
  clear_btn : bool
}.

Definition is_generator (self : ChatInterface) : bool :=
  match fn self with
  | GeneratorFn _ => true
  | Plain _ => false
  end.

(** What is bound to an event: a function, run once, or a generator
    function, whose every yield is one update of the outputs. *)
Inductive Handler (O : Type) :=
  | Returns (f : Fun O)
  | Yields (g : Gen O).
Arguments Returns {O} _.
Arguments Yields {O} _.

(** [submit_fn = self._stream_fn if self.is_generator else self._submit_fn] *)
Definition submit_fn (self : ChatInterface) (message : Str)
    (history_with_input : loc) : Handler (loc * loc) :=
  match fn self with
  | GeneratorFn g => Yields (_stream_fn g message history_with_input)
  | Plain f => Returns (_submit_fn f message history_with_input)
  end.

(** [api_fn = self._api_stream_fn if self.is_generator else self._api_submit_fn] *)
Definition api_fn (self : ChatInterface) (message : Str) (history : loc)
    : Handler (Str * loc) :=
  match fn self with
  | GeneratorFn g => Yields (_api_stream_fn g message history)
  | Plain f => Returns (_api_submit_fn f message history)
  end.

(** [examples_fn], chosen the same way in [__init__]. *)
Definition examples_fn (self : ChatInterface) (message : Str)
    : Handler loc :=
  match fn self with
  | GeneratorFn g => Yields (_examples_stream_fn g message)
  | Plain f => Returns (_examples_fn f message)
  end.

(** ** Session state and event chains *)

(** The values of the components the handlers read and write.  [chatbot]
    is what the chat view displays: the contents of the list it was last
    given, as sent to the front end at that update.  [chatbot_state] and
    [saved_input] are the two [State] components; a [State] keeps the very
    object a handler returned. *)
Record Session := MkSession {
  textbox : Str;
  chatbot : History;
  saved_input : Str;
  chatbot_state : loc
}.

Definition to_textbox (v : Str) (s : Session) : Fun Session :=
  ret (MkSession v (chatbot s) (saved_input s) (chatbot_state s)).

Definition to_chatbot (l : loc) (s : Session) : Fun Session :=
  H ← contents l;
  ret (MkSession (textbox s) H (saved_input s) (chatbot_state s)).

Definition to_saved_input (v : Str) (s : Session) : Fun Session :=
  ret (MkSession (textbox s) (chatbot s) v (chatbot_state s)).

Definition to_chatbot_state (l : loc) (s : Session) : Fun Session :=
  ret (MkSession (textbox s) (chatbot s) (saved_input s) l).

(** Modelled from the spec: the host framework's dispatcher (event
    binding and [.then] sequencing), which is not part of this file.  A
    bound handler is run on the values of its input components; each
    update it produces (the one value a function returns, every value a
    generator yields) is written to its output components before anything
    else runs; the steps of a chain run strictly in sequence.  A run of a
    chain produces the session after each committed update, and ends with
    the final session. *)
Definition lift {Y A} (f : Fun A) : M Y A :=
  fun w => let r := f w in Ran (res r) [] (world r).

Definition updates {O} (h : Handler O) : Gen O :=
  match h with
  | Returns f => o ← lift f; yield o
  | Yields g => g
  end.

Fixpoint commit_all {O} (outputs : O -> Session -> Fun Session)
    (ys : list (O * World)) (s : Session)
    : list (Session * World) * (Exn + Session) :=
  match ys with
  | [] => ([], inr s)
  | (o, w) :: ys =>
      match res (outputs o s w) with
      | inl e => ([], inl e)
      | inr s' =>
          let c := commit_all outputs ys s' in ((s', w) :: c.1, c.2)
      end
  end.

Definition Chain := Session -> M Session Session.

Definition on {O} (inputs : Session -> Handler O)
    (outputs : O -> Session -> Fun Session) : Chain :=
  fun s w =>
    let r := updates (inputs s) w in
    let c := commit_all outputs (out r) s in
    Ran (match c.2, res r with
         | inl e, _ => inl e
         | inr _, inl e => inl e
         | inr s', inr _ => inr s'
         end) c.1 (world r).

Definition then_ (c : Chain) (step : Chain) : Chain :=
  fun s => s' ← c s; step s'.

(** *** The output lists of the bindings *)

(** [[self.textbox, self.saved_input]] *)
Definition textbox_saved_input (o : Str * Str) (s : Session) : Fun Session :=
  s ← to_textbox o.1 s; to_saved_input o.2 s.

(** [[self.chatbot, self.chatbot_state]] *)
Definition chatbot_chatbot_state (o : loc * loc) (s : Session)
    : Fun Session :=
  s ← to_chatbot o.1 s; to_chatbot_state o.2 s.

(** [[self.chatbot, self.saved_input, self.chatbot_state]] *)
Definition chatbot_saved_input_chatbot_state (o : loc * Str * loc)
    (s : Session) : Fun Session :=
  s ← to_chatbot o.1.1 s; s ← to_saved_input o.1.2 s; to_chatbot_state o.2 s.

(** [[self.chatbot, self.chatbot_state, self.saved_input]] *)
Definition chatbot_chatbot_state_saved_input (o : loc * loc * Str)
    (s : Session) : Fun Session :=
  s ← to_chatbot o.1.1 s; s ← to_chatbot_state o.1.2 s; to_saved_input o.2 s.

(** [[self.textbox, self.chatbot_state]] *)
Definition textbox_chatbot_state (o : Str * loc) (s : Session)
    : Fun Session :=
  s ← to_textbox o.1 s; to_chatbot_state o.2 s.

(** *** The chains of [_setup_events] and [_setup_api] *)

(** [self.textbox.submit(...)] and [self.submit_btn.click(...)]: the same
    three steps. *)
Definition submit_event (self : ChatInterface) : Chain :=
  then_
    (then_
       (on (fun s => Returns (_clear_and_save_textbox (textbox s)))
           textbox_saved_input)
       (on (fun s => Returns (_display_input (saved_input s) (chatbot_state s)))
           chatbot_chatbot_state))
    (on (fun s => submit_fn self (saved_input s) (chatbot_state s))
        chatbot_chatbot_state).

(** [self.retry_btn.click(...)] *)
Definition retry_event (self : ChatInterface) : Chain :=
  then_
    (then_
       (on (fun s => Returns (_delete_prev_fn (chatbot_state s)))
           chatbot_saved_input_chatbot_state)
       (on (fun s => Returns (_display_input (saved_input s) (chatbot_state s)))
           chatbot_chatbot_state))
    (on (fun s => submit_fn self (saved_input s) (chatbot_state s))
        chatbot_chatbot_state).

(** [self.undo_btn.click(...)]; the second step is [lambda x: x]. *)
Definition undo_event : Chain :=
  then_
    (on (fun s => Returns (_delete_prev_fn (chatbot_state s)))
        chatbot_saved_input_chatbot_state)
    (on (fun s => Returns (ret (saved_input s)))
        to_textbox).

(** [self.clear_btn.click(lambda: ([], [], None), None, ...)] *)
Definition clear_lambda : Fun (loc * loc * Str) :=
  view ← new_list [];
  state ← new_list [];
  ret (view, state, None).

Definition clear_event : Chain :=
  on (fun _ => Returns clear_lambda) chatbot_chatbot_state_saved_input.

(** [self.fake_api_btn.click(api_fn, [self.textbox, self.chatbot_state],
    [self.textbox, self.chatbot_state], api_name="chat")] *)
Definition api_event (self : ChatInterface) : Chain :=
  on (fun s => api_fn self (textbox s) (chatbot_state s))
     textbox_chatbot_state.

(** ** The stop button: [_setup_stop_events] *)

Inductive Button := SubmitBtn | StopBtn.

(** The event listener methods a response chain is bound to. *)
Inductive Listener := TextboxSubmit | SubmitBtnClick | RetryBtnClick.

(** The final step of a response chain, as returned by its last [.then]. *)
Inductive Dependency := SubmitEvent | ClickEvent | RetryEvent.

(** When a binding runs: its listener fires, the stop button is clicked,
    or it was chained with [.then] after a dependency. *)
Inductive Trigger :=
  | Fires (l : Listener)
  | StopBtnClick
  | Then (d : Dependency).

#[global] Instance Listener_eq_dec : EqDecision Listener.
Proof. solve_decision. Defined.
#[global] Instance Dependency_eq_dec : EqDecision Dependency.
Proof. solve_decision. Defined.
#[global] Instance Trigger_eq_dec : EqDecision Trigger.
Proof. solve_decision. Defined.

(** A binding [trigger(fn, None, outputs, cancels=...)].  The functions
    bound here take no input and return [Button.update(visible=...)]
    values, one per output: [handler] is that tuple, [None] when [fn] is
    [None]. *)
Record Binding := MkBinding {
  trigger : Trigger;
  handler : option (list bool);
  outputs : list Button;
  cancels : option Dependency
}.

Definition _setup_stop_events (self : ChatInterface)
    (event_trigger : Listener) (event_to_cancel : Dependency)
    : list Binding :=
  if stop_btn self && is_generator self then
    (if submit_btn self then
       [ MkBinding (Fires event_trigger) (Some [false; true])
                   [SubmitBtn; StopBtn] None;
         MkBinding (Then event_to_cancel) (Some [true; false])
                   [SubmitBtn; StopBtn] None ]
     else
       [ MkBinding (Fires event_trigger) (Some [true]) [StopBtn] None;
         MkBinding (Then event_to_cancel) (Some [false]) [StopBtn] None ])
    ++ [ MkBinding StopBtnClick None [] (Some event_to_cancel) ]
  else [].

(** The three calls of [_setup_stop_events] in [_setup_events]. *)
Definition stop_events (self : ChatInterface) : list Binding :=
  _setup_stop_events self TextboxSubmit SubmitEvent
  ++ (if submit_btn self
      then _setup_stop_events self SubmitBtnClick ClickEvent else [])
  ++ (if retry_btn self
      then _setup_stop_events self RetryBtnClick RetryEvent else []).

(** The visibility of the two buttons.  At construction the submit
    button is visible and the stop button is created with
    [visible=False]. *)
Record Controls := MkControls {
  submit_visible : bool;
  stop_visible : bool
}.

Definition idle : Controls := MkControls true false.

Definition set_visible (b : Button) (v : bool) (c : Controls) : Controls :=
  match b with
  | SubmitBtn => MkControls v (stop_visible c)
  | StopBtn => MkControls (submit_visible c) v
  end.

Fixpoint apply_updates (bs : list Button) (vs : list bool) (c : Controls)
    : Controls :=
  match bs, vs with
  | b :: bs, v :: vs => apply_updates bs vs (set_visible b v c)
  | _, _ => c
  end.

(** Running one binding: its function's values go to its outputs; a
    binding without a function updates nothing. *)
Definition run_binding (b : Binding) (c : Controls) : Controls :=
  match handler b with
  | Some vs => apply_updates (outputs b) vs c
  | None => c
  end.

Definition run_bindings (bs : list Binding) (c : Controls) : Controls :=
  foldl (fun c b => run_binding b c) c bs.

Definition triggered (t : Trigger) (bs : list Binding) : list Binding :=
  filter (fun b => trigger b = t) bs.

Definition cancelled (bs : list Binding) : list Dependency :=
  omap cancels bs.

(** What happens to one in-flight response chain. *)
Inductive Event :=
  | Fire (l : Listener)          (* the chain's listener fires *)
  | Completed (d : Dependency)   (* its final step ran to its end *)
  | ClickStop.                   (* the stop button is clicked *)

Section Dispatcher.
  (** Modelled from the spec: the host framework's dispatcher, which is
      not part of this file.  It runs the bindings of the trigger that
      occurred, and the [.then] follow-ups of a dependency when that
      dependency completes.  Whether it also runs the follow-ups of a
      dependency that a binding cancelled is the host's choice, and a
      parameter here. *)
Variable then_after_cancel : bool.

Definition dispatch (bs : list Binding) (e : Event) (c : Controls)
      : Controls :=
    match e with
    | Fire l => run_bindings (triggered (Fires l) bs) c
    | Completed d => run_bindings (triggered (Then d) bs) c
    | ClickStop =>
        let clicked := triggered StopBtnClick bs in
        let c := run_bindings clicked c in
        if then_after_cancel then
          foldl (fun c d => run_bindings (triggered (Then d) bs) c) c
                (cancelled clicked)
        else c
    end.
End Dispatcher.

(** Modelled from the spec: what the host does with a step that a binding
    cancels.  The cancelled step completes, and the bindings chained after
    it with [.then] run as part of the cancellation completing, as they do
    after a natural completion. *)
Definition cancel_completes : bool := true.

(** ** What the generators are expected to emit *)

(** The responses a streaming adapter reports for a generator: its
    elements, or the single null response when it has none. *)
Definition responses (g : Generator) : list Str :=
  match g with
  | [] => [None]
  | _ => g
  end.

(** A store with one more list object. *)
Definition alloc (X : History) (w : World) : World :=
  MkWorld (heap w ++ [X]) (calls w).

(** One update per response: the list [c r] is allocated next in the
    store, and [mk r l] is yielded with that store. *)
Fixpoint emitted {Y} (mk : Str -> loc -> Y) (c : Str -> History)
    (w : World) (rs : list Str) : list (Y * World) :=
  match rs with
  | [] => []
  | r :: rs =>
      (mk r (length (heap w)), alloc (c r) w) :: emitted mk c (alloc (c r) w) rs
  end.

Definition allocs (c : Str -> History) (w : World) (rs : list Str) : World :=
  MkWorld (heap w ++ fmap c rs) (calls w).

(** The turn [history + [[message, response]]] of an update. *)
Definition with_turn (H : History) (message : Str) (response : Str)
    : History :=
  H ++ [(message, response)].

Section Adapters.
Context {Y : Type} (mk : Str -> loc -> Y).
Variables (history : loc) (m : Str).

  (** The shape shared by [_stream_fn] and [_api_stream_fn] once the
      generator is at hand: the first pull with its fallback, then the
      loop over the rest. *)
Definition pull_all (gen : Generator) : M Y unit :=
    generator ← try_except
                  ('(first_response, generator) ← next gen;
                   update ← list_add history (m, first_response);
                   yield (mk first_response update);;
                   ret generator)
                  is_StopIteration
                  (update ← list_add history (m, None);
                   yield (mk None update);;
                   ret gen);
    for_in generator (fun response =>
      update ← list_add history (m, response);
      yield (mk response update)).

End Adapters.

(** The example of the class docstring: [def echo(message, history): return
    message]. *)
Definition echo_fn : Str -> History -> Str := fun message _ => message.

(** The responses the response step reports for message [m] on history
    [H]: the one value of a plain [fn], the elements of a generator. *)
Definition replies (self : ChatInterface) (m : Str) (H : History)
    : list Str :=
  match fn self with
  | Plain f => [f m H]
  | GeneratorFn g => responses (g m H)
  end.

(** The sessions committed while the final step of a chain streams: one
    per response, each showing the list built for that response and
    keeping a reference to it. *)
Fixpoint committed (c : Str -> History) (w : World) (rs : list Str)
    (s : Session) : list (Session * World) :=
  match rs with
  | [] => []
  | r :: rs =>
      let s' := MkSession (textbox s) (c r) (saved_input s)
                          (length (heap w)) in
      (s', alloc (c r) w) :: committed c (alloc (c r) w) rs s'
  end.

Fixpoint final_commit (c : Str -> History) (w : World) (rs : list Str)
    (s : Session) : Session :=
  match rs with
  | [] => s
  | r :: rs =>
      final_commit c (alloc (c r) w) rs
        (MkSession (textbox s) (c r) (saved_input s) (length (heap w)))
  end.

(** ** Agreement of the view and the history state *)

(** The chat view shows what the history state holds. *)
Definition consistent (s : Session) (w : World) : Prop :=
  deref w (chatbot_state s) = Some (chatbot s).

(** ** The response chains of [_setup_events] and their stop bindings *)

(** The chain a listener starts, and whether [_setup_events] binds it:
    the textbox chain always, the other two when their button is there. *)
Definition dep_of (l : Listener) : Dependency :=
  match l with
  | TextboxSubmit => SubmitEvent
  | SubmitBtnClick => ClickEvent
  | RetryBtnClick => RetryEvent
  end.

Definition wired (self : ChatInterface) (l : Listener) : bool :=
  match l with
  | TextboxSubmit => true
  | SubmitBtnClick => submit_btn self
  | RetryBtnClick => retry_btn self
  end.

(** ** The buttons of [__init__] *)

Module Init.

(** The attributes of a [gr.Button] that this file sets: its label and
    the keyword arguments; [None] is an argument left at the default of
    the [Button] class. *)
Record ButtonAttrs := MkButton {
  value : string;
  variant : option string;
  visible : option bool;
  scale : option nat;
  min_width : option nat
}.

(** What can be passed as a [*_btn] parameter: [None], a string, a
    [Button] object (a reference: the same object may be passed twice),
    or any other Python value, of which only the truth value matters
    here. *)
Inductive Value :=
  | VNone
  | VStr (s : string)
  | VButton (b : nat)
  | VOther (truth : bool).

(** [if btn:].  A [Button] defines neither [__bool__] nor [__len__], so
    it is true. *)
Definition is_true (v : Value) : bool :=
  match v with
  | VNone => false
  | VStr s => negb (String.eqb s "")
  | VButton _ => true
  | VOther truth => truth
  end.

Definition is_button (v : Value) : bool :=
  match v with
  | VButton _ => true
  | _ => false
  end.

(** A parameter that the [else: raise ValueError] branches reject: true,
    and neither a [Button] nor a string. *)
Definition rejected (v : Value) : bool :=
  match v with
  | VOther true => true
  | _ => false
  end.

Section Host.

(** The [Blocks] being built belongs to the host framework and is not
    part of this file: its state, what [Button.render()] does to it or
    raises (a block that is already rendered cannot be rendered again),
    and how it registers a [Button] created inside [with self:].
    [render] is taken not to change the attributes kept here. *)
Variable Host : Type.
Variable HostError : Type.
Variable render : nat -> Host -> HostError + Host.
Variable register : nat -> Host -> Host.

(** The [Button] objects that exist, by reference, and the host. *)
Record State := MkState {
  objs : list ButtonAttrs;
  host : Host
}.

(** The three [raise ValueError(...)] of [__init__], by their message,
    the [ValueError] of a tuple assignment of the wrong length, and what
    [render] raises. *)
Inductive Error :=
  | SubmitBtnError   (* "The submit_btn parameter must be ..." *)
  | StopBtnError     (* "The stop_btn parameter must be ..." *)
  | AnyBtnError      (* "All the _btn parameters must be ..." *)
  | UnpackError
  | RenderError (e : HostError).

(** [b.render()] *)
Definition do_render (b : nat) (st : State) : Error + State :=
  match render b (host st) with
  | inl e => inl (RenderError e)
  | inr h => inr (MkState (objs st) h)
  end.

(** [Button(...)] inside [with self:]: a new object, registered. *)
Definition new_button (attrs : ButtonAttrs) (st : State) : nat * State :=
  let b := length (objs st) in
  (b, MkState (objs st ++ [attrs]) (register b (host st))).

(** [b.visible = v] *)
Definition set_visible (b : nat) (v : bool) (st : State) : State :=
  MkState
    (alter (fun a => MkButton (value a) (variant a) (Some v) (scale a)
                              (min_width a)) b (objs st))
    (host st).

Definition setup_submit_btn (submit_btn : Value) (st : State)
    : Error + (Value * State) :=
  if is_true submit_btn then
    match submit_btn with
    | VButton b =>
        match do_render b st with
        | inl e => inl e
        | inr st => inr (VButton b, st)
        end
    | VStr s =>
        let (b, st) :=
          new_button (MkButton s (Some "primary") None (Some 1) (Some 150))
                     st in
        inr (VButton b, st)
    | _ => inl SubmitBtnError
    end
  else inr (submit_btn, st).

Definition setup_stop_btn (stop_btn : Value) (st : State)
    : Error + (Value * State) :=
  if is_true stop_btn then
    match stop_btn with
    | VButton b =>
        match do_render b (set_visible b false st) with
        | inl e => inl e
        | inr st => inr (VButton b, st)
        end
    | VStr s =>
        let (b, st) :=
          new_button (MkButton s (Some "stop") (Some false) (Some 1)
                               (Some 150)) st in
        inr (VButton b, st)
    | _ => inl StopBtnError
    end
  else inr (stop_btn, st).

Definition setup_btn (btn : Value) (st : State) : Error + (Value * State) :=
  if is_true btn then
    match btn with
    | VButton b =>
        match do_render b st with
        | inl e => inl e
        | inr st => inr (VButton b, st)
        end
    | VStr s =>
        let (b, st) :=
          new_button (MkButton s (Some "secondary") None None None) st in
        inr (VButton b, st)
    | _ => inl AnyBtnError
    end
  else inr (btn, st).

(** [for btn in [...]: ...; self.buttons.append(btn)] *)
Fixpoint setup_row (btns : list Value) (buttons : list Value) (st : State)
    : Error + (list Value * State) :=
  match btns with
  | [] => inr (buttons, st)
  | btn :: btns =>
      match setup_btn btn st with
      | inl e => inl e
      | inr (btn, st) => setup_row btns (buttons ++ [btn]) st
      end
  end.

(** [self.buttons] at the end of the layout: it starts empty, is extended
    with [[submit_btn, stop_btn]] and then by the loop. *)
Definition setup_buttons (submit_btn stop_btn retry_btn undo_btn
    clear_btn : Value) (st : State) : Error + (list Value * State) :=
  match setup_submit_btn submit_btn st with
  | inl e => inl e
  | inr (submit_btn, st) =>
      match setup_stop_btn stop_btn st with
      | inl e => inl e
      | inr (stop_btn, st) =>
          setup_row [retry_btn; undo_btn; clear_btn]
                    ([] ++ [submit_btn; stop_btn]) st
      end
  end.

(** [(self.submit_btn, self.stop_btn, self.retry_btn, self.undo_btn,
    self.clear_btn) = self.buttons] *)
Definition unpack (buttons : list Value)
    : Error + (Value * Value * Value * Value * Value) :=
  match buttons with
  | [a; b; c; d; e] => inr (a, b, c, d, e)
  | _ => inl UnpackError
  end.

(** The interface object as the event wiring sees it: [if self.x_btn:]
    tests the truth value of what was stored. *)
Definition construct (fn : ResponseFn) (submit_btn stop_btn retry_btn
    undo_btn clear_btn : Value) (st : State)
    : Error + (ChatInterface * State) :=
  match setup_buttons submit_btn stop_btn retry_btn undo_btn clear_btn st with
  | inl e => inl e
  | inr (buttons, st) =>
      match unpack buttons with
      | inl e => inl e
      | inr (a, b, c, d, e) =>
          inr (MkChatInterface fn (is_true a) (is_true b) (is_true c)
                               (is_true d) (is_true e), st)
      end
  end.

End Host.

Arguments MkState {Host} _ _.
Arguments objs {Host} _.
Arguments host {Host} _.
Arguments SubmitBtnError {HostError}.
Arguments StopBtnError {HostError}.
Arguments AnyBtnError {HostError}.
Arguments UnpackError {HostError}.
Arguments RenderError {HostError} _.

End Init.

(** * Properties *)

(** ** The store *)

Lemma lookup_fresh (h : list History) (X : History) :
  (h ++ [X]) !! length h = Some X.
Proof. by rewrite list_lookup_middle. Qed.

Lemma lookup_old (h : list History) (X H : History) (l : loc) :
  h !! l = Some H -> (h ++ [X]) !! l = Some H.
Proof. intros Hl. by rewrite lookup_app_l_Some with (x := H). Qed.

Lemma insert_fresh (h : list History) (X X' : History) :
  <[length h := X']> (h ++ [X]) = h ++ [X'].
Proof.
  rewrite insert_app_r_alt by lia. by rewrite Nat.sub_diag.
Qed.

Lemma lookup_stored (h : list History) (l : loc) (H H' : History) :
  h !! l = Some H -> <[l := H']> h !! l = Some H'.
Proof.
  intros Hl. apply list_lookup_insert_eq. by eapply lookup_lt_Some.
Qed.

Lemma removelast_snoc {A} (l : list A) (x : A) : removelast (l ++ [x]) = l.
Proof. apply removelast_last. Qed.

Lemma last_snoc' {A} (l : list A) (x : A) : last (l ++ [x]) = Some x.
Proof. apply last_snoc. Qed.

(** ** The statements of the monad *)

Lemma run_eta {Y A} (r : Run Y A) : Ran (res r) (out r) (world r) = r.
Proof. by destruct r. Qed.

Lemma bind_returned {Y A B} (m : M Y A) (k : A -> M Y B) w a o w' :
  m w = Ran (inr a) o w' ->
  bind m k w = Ran (res (k a w')) (o ++ out (k a w')) (world (k a w')).
Proof. intros E. unfold bind. by rewrite E. Qed.

Lemma bind_raised {Y A B} (m : M Y A) (k : A -> M Y B) w e o w' :
  m w = Ran (inl e) o w' -> bind m k w = Ran (inl e) o w'.
Proof. intros E. unfold bind. by rewrite E. Qed.

Lemma contents_run {Y} (l : loc) (w : World) (H : History) :
  heap w !! l = Some H -> contents (Y := Y) l w = Ran (inr H) [] w.
Proof. intros E. unfold contents. by rewrite E. Qed.

Lemma list_append_run {Y} (l : loc) (t : Turn) (w : World) (H : History) :
  heap w !! l = Some H ->
  list_append (Y := Y) l t w
  = Ran (inr tt) [] (MkWorld (<[l := H ++ [t]]> (heap w)) (calls w)).
Proof.
  intros E. unfold list_append.
  by rewrite (bind_returned _ _ _ _ _ _ (contents_run l w H E)).
Qed.

Lemma list_add_run {Y} (l : loc) (t : Turn) (w : World) (H : History) :
  heap w !! l = Some H ->
  list_add (Y := Y) l t w
  = Ran (inr (length (heap w))) []
        (MkWorld (heap w ++ [H ++ [t]]) (calls w)).
Proof.
  intros E. unfold list_add.
  by rewrite (bind_returned _ _ _ _ _ _ (contents_run l w H E)).
Qed.

Lemma slice_init_run {Y} (l : loc) (w : World) (H : History) :
  heap w !! l = Some H ->
  slice_init (Y := Y) l w
  = Ran (inr (length (heap w))) []
        (MkWorld (heap w ++ [removelast H]) (calls w)).
Proof.
  intros E. unfold slice_init.
  by rewrite (bind_returned _ _ _ _ _ _ (contents_run l w H E)).
Qed.

Lemma invoke_run {Y R} (f : Str -> History -> R) (m : Str) (l : loc)
    (w : World) (H : History) :
  heap w !! l = Some H ->
  invoke (Y := Y) f m l w
  = Ran (inr (f m H)) [] (MkWorld (heap w) (calls w ++ [(m, H)])).
Proof.
  intros E. unfold invoke.
  by rewrite (bind_returned _ _ _ _ _ _ (contents_run l w H E)).
Qed.

Lemma list_pop_run {Y} (l : loc) (w : World) (H : History) (t : Turn) :
  heap w !! l = Some (H ++ [t]) ->
  list_pop (Y := Y) l w
  = Ran (inr t) [] (MkWorld (<[l := H]> (heap w)) (calls w)).
Proof.
  intros E. unfold list_pop.
  rewrite (bind_returned _ _ _ _ _ _ (contents_run l w _ E)).
  rewrite last_snoc', removelast_snoc. reflexivity.
Qed.

Lemma list_pop_empty {Y} (l : loc) (w : World) :
  heap w !! l = Some [] ->
  list_pop (Y := Y) l w = Ran (inl IndexError) [] w.
Proof.
  intros E. unfold list_pop.
  by rewrite (bind_returned _ _ _ _ _ _ (contents_run l w _ E)).
Qed.

(** ** The handlers, one equation each *)

(** Run the first statement of a body with the equation [lem] of that
    statement; its premise is a lookup in the store. *)
Tactic Notation "step" uconstr(lem) :=
  erewrite bind_returned
    by (apply lem; cbn; eauto using lookup_fresh, lookup_old, lookup_stored);
  cbn.

Lemma display_input_run (m : Str) (l : loc) (w : World) (H : History) :
  heap w !! l = Some H ->
  _display_input m l w
  = Ran (inr (l, l)) []
        (MkWorld (<[l := H ++ [(m, None)]]> (heap w)) (calls w)).
Proof.
  intros E. unfold _display_input.
  by rewrite (bind_returned _ _ _ _ _ _ (list_append_run l _ w H E)).
Qed.

Lemma submit_fn_run (f : Str -> History -> Str) (m : Str) (l : loc)
    (w : World) (Hin : History) :
  heap w !! l = Some Hin ->
  _submit_fn f m l w
  = Ran (inr (length (heap w), length (heap w))) []
        (MkWorld (heap w ++ [removelast Hin ++ [(m, f m (removelast Hin))]])
                 (calls w ++ [(m, removelast Hin)])).
Proof.
  intros E. unfold _submit_fn.
  step slice_init_run.
  step invoke_run.
  step list_append_run.
  by rewrite insert_fresh.
Qed.

Lemma api_submit_fn_run (f : Str -> History -> Str) (m : Str) (l : loc)
    (w : World) (H : History) :
  heap w !! l = Some H ->
  _api_submit_fn f m l w
  = Ran (inr (f m H, l)) []
        (MkWorld (<[l := H ++ [(m, f m H)]]> (heap w))
                 (calls w ++ [(m, H)])).
Proof.
  intros E. unfold _api_submit_fn.
  step invoke_run.
  step list_append_run.
  reflexivity.
Qed.

Lemma examples_fn_run (f : Str -> History -> Str) (m : Str) (w : World) :
  _examples_fn f m w
  = Ran (inr (S (length (heap w)))) []
        (MkWorld (heap w ++ [[]] ++ [[(m, f m [])]])
                 (calls w ++ [(m, [])])).
Proof.
  unfold _examples_fn, bind at 1. cbn.
  step invoke_run.
  rewrite length_app. cbn. rewrite Nat.add_1_r, <- app_assoc. reflexivity.
Qed.

Lemma delete_prev_fn_run (l : loc) (w : World) (H : History) (m r : Str) :
  heap w !! l = Some (H ++ [(m, r)]) ->
  _delete_prev_fn l w
  = Ran (inr (l, or_empty m, l)) []
        (MkWorld (<[l := H]> (heap w)) (calls w)).
Proof.
  intros E. unfold _delete_prev_fn, try_except, bind at 1.
  by rewrite (bind_returned _ _ _ _ _ _ (list_pop_run l w H (m, r) E)).
Qed.

Lemma delete_prev_fn_empty (l : loc) (w : World) :
  heap w !! l = Some [] ->
  _delete_prev_fn l w = Ran (inr (l, Some "", l)) [] w.
Proof.
  intros E. unfold _delete_prev_fn, try_except, bind at 1.
  rewrite (bind_raised _ _ _ _ _ _ (list_pop_empty l w E)). cbn.
  by destruct w.
Qed.

(** ** Loops over a generator *)

Lemma alloc_allocs (c : Str -> History) (w : World) (r : Str)
    (rs : list Str) :
  allocs c (alloc (c r) w) rs = allocs c w (r :: rs).
Proof. unfold allocs, alloc. cbn. by rewrite <- app_assoc. Qed.

Lemma allocs_nil (c : Str -> History) (w : World) : allocs c w [] = w.
Proof. destruct w. unfold allocs. cbn. by rewrite app_nil_r. Qed.

Section Loop.
Context {Y : Type} (mk : Str -> loc -> Y) (c : Str -> History).
Variable body : Str -> M Y unit.
Variable P : World -> Prop.
Hypothesis P_alloc : forall w X, P w -> P (alloc X w).
Hypothesis body_run : forall r w, P w ->
    body r w
    = Ran (inr tt) [(mk r (length (heap w)), alloc (c r) w)] (alloc (c r) w).

Lemma for_in_run (rs : list Str) (w : World) :
    P w ->
    for_in rs body w = Ran (inr tt) (emitted mk c w rs) (allocs c w rs).
  Proof.
    revert w. induction rs as [|r rs IH]; intros w Hw; cbn.
    - by rewrite allocs_nil.
    - erewrite bind_returned by (by apply body_run).
      rewrite IH by (by apply P_alloc). cbn.
      by rewrite alloc_allocs.
  Qed.
End Loop.

Lemma emitted_length {Y} (mk : Str -> loc -> Y) c w rs :
  length (emitted mk c w rs) = length rs.
Proof. revert w. induction rs; intros; cbn; auto. Qed.

(** The values yielded, with the references numbered from the first free
    index of the store. *)
Lemma emitted_values {Y} (mk : Str -> loc -> Y) c w rs :
  fmap fst (emitted mk c w rs)
  = imap (fun i r => mk r (length (heap w) + i)) rs.
Proof.
  revert w. induction rs as [|r rs IH]; intros w; cbn; [done|].
  rewrite IH, Nat.add_0_r. f_equal.
  apply imap_ext. intros i x _. cbn. rewrite length_app. cbn.
  f_equal. lia.
Qed.

(** The references yielded are the next free indices of the store. *)
Lemma emitted_locs {Y} (mk : Str -> loc -> Y) (at_ : Y -> loc) c w rs :
  (forall r l, at_ (mk r l) = l) ->
  (fun yw : Y * World => at_ yw.1) <$> emitted mk c w rs
  = seq (length (heap w)) (length rs).
Proof.
  intros Hat. revert w.
  induction rs as [|r rs IH]; intros w; cbn; [done|].
  rewrite IH, Hat. cbn. by rewrite length_app, Nat.add_1_r.
Qed.

Lemma emitted_fresh {Y} (mk : Str -> loc -> Y) (at_ : Y -> loc) c w rs y w' :
  (forall r l, at_ (mk r l) = l) ->
  (y, w') ∈ emitted mk c w rs ->
  length (heap w) <= at_ y.
Proof.
  intros Hat Hin.
  apply (list_elem_of_fmap_2 (fun yw : Y * World => at_ yw.1)) in Hin.
  rewrite (emitted_locs mk at_) in Hin by done.
  apply elem_of_seq in Hin. cbn in Hin. lia.
Qed.

(** A view of an update that depends only on the response and on the
    list built for it is the same view of every update. *)
Lemma emitted_map {Y V} (mk : Str -> loc -> Y) c (view : Y * World -> V)
    (f : Str -> V) w rs :
  (forall r w, view (mk r (length (heap w)), alloc (c r) w) = f r) ->
  fmap view (emitted mk c w rs) = fmap f rs.
Proof.
  intros Hview. revert w.
  induction rs as [|r rs IH]; intros w; cbn; [done|].
  by rewrite IH, Hview.
Qed.

Lemma emitted_seen_pair c w rs :
  fmap seen_pair (emitted (fun _ u => (u, u)) c w rs)
  = fmap (fun r => (Some (c r), Some (c r))) rs.
Proof.
  apply emitted_map. intros r w'. unfold seen_pair, deref. cbn.
  by rewrite lookup_fresh.
Qed.

Lemma emitted_seen_api c w rs :
  fmap seen_api (emitted (fun r u => (r, u)) c w rs)
  = fmap (fun r => (r, Some (c r))) rs.
Proof.
  apply emitted_map. intros r w'. unfold seen_api, deref. cbn.
  by rewrite lookup_fresh.
Qed.

Lemma emitted_seen_list c w rs :
  fmap seen_list (emitted (fun _ u => u) c w rs)
  = fmap (fun r => Some (c r)) rs.
Proof.
  apply emitted_map. intros r w'. unfold seen_list, deref. cbn.
  by rewrite lookup_fresh.
Qed.

(** No update disturbs a list that was already in the store. *)
Lemma emitted_frame {Y} (mk : Str -> loc -> Y) c w rs l H y w' :
  heap w !! l = Some H ->
  (y, w') ∈ emitted mk c w rs ->
  heap w' !! l = Some H /\ calls w' = calls w.
Proof.
  revert w. induction rs as [|r rs IH]; intros w Hl Hin; cbn in Hin.
  - by apply elem_of_nil in Hin.
  - apply elem_of_cons in Hin as [Heq | Hin].
    + inversion Heq; subst. split; [by apply lookup_old | done].
    + apply IH in Hin; [done | by apply lookup_old].
Qed.

Lemma allocs_frame c w rs l H :
  heap w !! l = Some H -> heap (allocs c w rs) !! l = Some H.
Proof. intros Hl. cbn. by apply lookup_app_l_Some. Qed.

(** ** The streaming handlers, one equation each *)

Lemma yield_update_run {Y} (mk : Str -> loc -> Y) (history : loc)
    (m r : Str) (H : History) (w : World) :
  heap w !! history = Some H ->
  bind (list_add history (m, r)) (fun update => yield (mk r update)) w
  = Ran (inr tt) [(mk r (length (heap w)), alloc (with_turn H m r) w)]
        (alloc (with_turn H m r) w).
Proof. intros E. step list_add_run. reflexivity. Qed.

Lemma first_update_run {Y} (mk : Str -> loc -> Y) (history : loc)
    (m : Str) (H : History) (gen : Generator) (w : World) :
  heap w !! history = Some H ->
  try_except
    ('(first_response, generator) ← next gen;
     update ← list_add history (m, first_response);
     yield (mk first_response update);;
     ret generator)
    is_StopIteration
    (update ← list_add history (m, None);
     yield (mk None update);;
     ret gen) w
  = let r := hd None (responses gen) in
    Ran (inr (tl gen)) [(mk r (length (heap w)), alloc (with_turn H m r) w)]
        (alloc (with_turn H m r) w).
Proof.
  intros E. unfold try_except.
  destruct gen as [|r rs]; cbn [next responses hd tl].
  - erewrite bind_raised by reflexivity. cbn.
    step list_add_run. reflexivity.
  - erewrite bind_returned by reflexivity. cbn.
    step list_add_run. reflexivity.
Qed.

Section Adapters.
Context {Y : Type} (mk : Str -> loc -> Y).
Variables (history : loc) (m : Str) (H : History).

Lemma pull_all_run (gen : Generator) (w : World) :
  heap w !! history = Some H ->
  pull_all mk history m gen w
  = Ran (inr tt) (emitted mk (with_turn H m) w (responses gen))
        (allocs (with_turn H m) w (responses gen)).
Proof.
  intros E. unfold pull_all.
  erewrite bind_returned by (by apply first_update_run).
  rewrite for_in_run
    with (mk := mk) (c := with_turn H m)
         (P := fun w' => heap w' !! history = Some H).
  - cbn. rewrite alloc_allocs. by destruct gen.
  - intros w2 X Hw2. by apply lookup_old.
  - intros r w2 Hw2. by apply yield_update_run.
  - by apply lookup_old.
Qed.
End Adapters.

Lemma stream_fn_run (g : Str -> History -> Generator) (m : Str) (l : loc)
    (w : World) (Hin : History) :
  heap w !! l = Some Hin ->
  let H := removelast Hin in
  let w1 := MkWorld (heap w ++ [H]) (calls w ++ [(m, H)]) in
  _stream_fn g m l w
  = Ran (inr tt)
        (emitted (fun _ u => (u, u)) (with_turn H m) w1 (responses (g m H)))
        (allocs (with_turn H m) w1 (responses (g m H))).
Proof.
  intros E H w1. unfold _stream_fn.
  step slice_init_run. step invoke_run. fold H. fold w1.
  rewrite <- (pull_all_run (fun _ u => (u, u)) (length (heap w)) m H)
    by apply lookup_fresh.
  unfold pull_all. apply run_eta.
Qed.

Lemma api_stream_fn_run (g : Str -> History -> Generator) (m : Str)
    (l : loc) (w : World) (H : History) :
  heap w !! l = Some H ->
  let w1 := MkWorld (heap w) (calls w ++ [(m, H)]) in
  _api_stream_fn g m l w
  = Ran (inr tt)
        (emitted (fun r u => (r, u)) (with_turn H m) w1 (responses (g m H)))
        (allocs (with_turn H m) w1 (responses (g m H))).
Proof.
  intros E w1. unfold _api_stream_fn.
  step invoke_run. fold w1.
  rewrite <- (pull_all_run (fun r u => (r, u)) l m H) by done.
  unfold pull_all. apply run_eta.
Qed.

Lemma examples_stream_fn_run (g : Str -> History -> Generator) (m : Str)
    (w : World) :
  let w1 := MkWorld (heap w ++ [[]]) (calls w ++ [(m, [])]) in
  _examples_stream_fn g m w
  = Ran (inr tt)
        (emitted (fun _ u => u) (with_turn [] m) w1 (g m []))
        (allocs (with_turn [] m) w1 (g m [])).
Proof.
  intros w1. unfold _examples_stream_fn, bind at 1. cbn.
  step invoke_run. fold w1.
  rewrite for_in_run
    with (mk := fun (_ : Str) (u : loc) => u) (c := with_turn [] m)
         (P := fun _ => True); [|done| |done].
  - by destruct (emitted _ _ _ _).
  - intros r w2 _. reflexivity.
Qed.

(** ** The response adapters *)

(** C2.  A streaming [fn] whose generator yields the non-empty sequence
    [r1, ..., rn]: [_stream_fn], given the history with the pending turn
    [H + [(m, None)]], ends normally after exactly [n] updates; the i-th
    update is the pair of one and the same list [H + [(m, r_i)]], so every
    emitted history has [|H| + 1] turns: the last turn is replaced, none
    is added.  The generator was obtained from [fn(m, H)]. *)
Theorem C2_stream_fn_updates (g : Str -> History -> Generator) (m : Str)
    (l : loc) (w : World) (H : History) :
  heap w !! l = Some (H ++ [(m, None)]) ->
  g m H <> [] ->
  let run := _stream_fn g m l w in
  res run = inr tt
  /\ length (out run) = length (g m H)
  /\ fmap seen_pair (out run)
     = fmap (fun r => (Some (H ++ [(m, r)]), Some (H ++ [(m, r)]))) (g m H)
  /\ Forall (fun yw : (loc * loc) * World => yw.1.1 = yw.1.2) (out run)
  /\ Forall (fun v : option History * option History =>
               length <$> v.1 = Some (S (length H))) (fmap seen_pair (out run))
  /\ calls (world run) = calls w ++ [(m, H)].
Proof.
  intros E Hne run. subst run.
  rewrite (stream_fn_run g m l w _ E), removelast_snoc. cbn zeta.
  assert (Hr : responses (g m H) = g m H) by (by destruct (g m H)).
  rewrite Hr. cbn [res out world].
  repeat split.
  - apply emitted_length.
  - apply emitted_seen_pair.
  - apply Forall_forall. intros [[a b] w'] Hin.
    apply (list_elem_of_fmap_2 fst) in Hin. rewrite emitted_values in Hin.
    apply elem_of_lookup_imap in Hin as (i & r & Heq & _).
    by inversion Heq.
  - rewrite emitted_seen_pair. apply Forall_forall. intros v Hin.
    apply list_elem_of_fmap in Hin as (r & -> & _). cbn.
    unfold with_turn. rewrite length_app. cbn. f_equal. lia.
Qed.

Lemma C2_stream_fn_updates_witness :
  let g : Str -> History -> Generator :=
    fun _ _ => [Some "a"; Some "ab"; Some "abc"] in
  let H : History := [(Some "x", Some "y")] in
  let w := MkWorld [H ++ [(Some "hi", None)]] [] in
  (heap w !! 0 = Some (H ++ [(Some "hi", None)]) /\ g (Some "hi") H <> [])
  /\ fmap seen_pair (out (_stream_fn g (Some "hi") 0 w))
     = [ (Some (H ++ [(Some "hi", Some "a")]),
          Some (H ++ [(Some "hi", Some "a")]));
         (Some (H ++ [(Some "hi", Some "ab")]),
          Some (H ++ [(Some "hi", Some "ab")]));
         (Some (H ++ [(Some "hi", Some "abc")]),
          Some (H ++ [(Some "hi", Some "abc")])) ].
Proof.
  intros g H w.
  assert (E : heap w !! 0 = Some (H ++ [(Some "hi", None)])) by reflexivity.
  assert (Hne : g (Some "hi") H <> []) by discriminate.
  split; [by split|].
  exact (proj1 (proj2 (proj2
           (C2_stream_fn_updates g (Some "hi") 0 w H E Hne)))).
Defined.

(** C3.  A streaming [fn] whose generator yields nothing: [_stream_fn]
    ends normally (the [StopIteration] of the first pull does not escape)
    after exactly one update, the pair of [H + [(m, None)]] with itself;
    and [_api_stream_fn], given [H], ends normally after exactly one pair,
    [(None, H + [(m, None)])]. *)
Theorem C3_empty_stream (g : Str -> History -> Generator) (m : Str)
    (l l' : loc) (w w' : World) (H : History) :
  g m H = [] ->
  heap w !! l = Some (H ++ [(m, None)]) ->
  heap w' !! l' = Some H ->
  (res (_stream_fn g m l w) = inr tt
   /\ fmap seen_pair (out (_stream_fn g m l w))
      = [(Some (H ++ [(m, None)]), Some (H ++ [(m, None)]))])
  /\ (res (_api_stream_fn g m l' w') = inr tt
      /\ fmap seen_api (out (_api_stream_fn g m l' w'))
         = [(None, Some (H ++ [(m, None)]))]).
Proof.
  intros Hg E E'.
  rewrite (stream_fn_run g m l w _ E), removelast_snoc. cbn zeta.
  rewrite (api_stream_fn_run g m l' w' _ E'). cbn zeta.
  rewrite Hg. cbn [res out]. rewrite emitted_seen_pair, emitted_seen_api.
  done.
Qed.

Lemma C3_empty_stream_witness :
  let g : Str -> History -> Generator := fun _ _ => [] in
  let H : History := [(Some "x", Some "y")] in
  let w := MkWorld [H ++ [(Some "hi", None)]] [] in
  let w' := MkWorld [H] [] in
  (g (Some "hi") H = []
   /\ heap w !! 0 = Some (H ++ [(Some "hi", None)])
   /\ heap w' !! 0 = Some H)
  /\ (res (_stream_fn g (Some "hi") 0 w) = inr tt
      /\ fmap seen_pair (out (_stream_fn g (Some "hi") 0 w))
         = [(Some (H ++ [(Some "hi", None)]), Some (H ++ [(Some "hi", None)]))])
  /\ (res (_api_stream_fn g (Some "hi") 0 w') = inr tt
      /\ fmap seen_api (out (_api_stream_fn g (Some "hi") 0 w'))
         = [(None, Some (H ++ [(Some "hi", None)]))]).
Proof.
  intros g H w w'.
  split; [repeat split|].
  exact (C3_empty_stream g (Some "hi") 0 0 w w' H eq_refl eq_refl eq_refl).
Defined.

(** ** The API entry point *)

Lemma updates_returns {O} (f : Fun O) (w w' : World) (o : O) ys :
  f w = Ran (inr o) ys w' ->
  updates (Returns f) w = Ran (inr tt) [(o, w')] w'.
Proof.
  intros E. unfold updates.
  erewrite bind_returned by (unfold lift; by rewrite E). reflexivity.
Qed.

(** C5.  The API entry point branches on [fn] exactly as the response
    step of the interface does: a plain [fn] is run by [_api_submit_fn],
    which returns [(fn(m, H), H + [(m, fn(m, H))])]; a generator [fn] is
    run by [_api_stream_fn], whose i-th value is [(r_i, H + [(m, r_i)])]
    for the i-th element [r_i] of [fn(m, H)], the null response standing
    for an empty stream.  In both cases the histories of the API call on
    [H] are, one by one, the histories the response step emits on
    [H + [(m, None)]], and the response component is the response of that
    very update. *)
Theorem C5_api_same_branching (self : ChatInterface) (m : Str) (l l' : loc)
    (w w' : World) (H : History) :
  heap w !! l = Some H ->
  heap w' !! l' = Some (H ++ [(m, None)]) ->
  let api := updates (api_fn self m l) w in
  let ui := updates (submit_fn self m l') w' in
  (res api = inr tt /\ res ui = inr tt)
  /\ seen_api <$> out api
     = (fun r => (r, Some (H ++ [(m, r)]))) <$> replies self m H
  /\ seen_pair <$> out ui
     = (fun r => (Some (H ++ [(m, r)]), Some (H ++ [(m, r)])))
         <$> replies self m H
  /\ snd <$> (seen_api <$> out api) = fst <$> (seen_pair <$> out ui)
  /\ match fn self with
     | Plain f =>
         is_generator self = false
         /\ api_fn self m l = Returns (_api_submit_fn f m l)
         /\ submit_fn self m l' = Returns (_submit_fn f m l')
         /\ res (_api_submit_fn f m l w) = inr (f m H, l)
         /\ deref (world (_api_submit_fn f m l w)) l
            = Some (H ++ [(m, f m H)])
     | GeneratorFn g =>
         is_generator self = true
         /\ api_fn self m l = Yields (_api_stream_fn g m l)
         /\ submit_fn self m l' = Yields (_stream_fn g m l')
     end.
Proof.
  intros E E' api ui. subst api ui.
  unfold api_fn, submit_fn, replies, is_generator.
  destruct (fn self) as [f | g].
  - rewrite (updates_returns _ _ _ _ _ (api_submit_fn_run f m l w H E)).
    rewrite (updates_returns _ _ _ _ _ (submit_fn_run f m l' w' _ E')).
    rewrite (api_submit_fn_run f m l w H E), removelast_snoc.
    unfold seen_api, seen_pair, deref. cbn.
    rewrite lookup_fresh, (lookup_stored _ _ H) by done.
    done.
  - cbn [updates].
    rewrite (api_stream_fn_run g m l w H E).
    rewrite (stream_fn_run g m l' w' _ E'), removelast_snoc.
    cbn zeta. cbn [res out].
    rewrite emitted_seen_pair, emitted_seen_api.
    rewrite <- !list_fmap_compose. done.
Qed.

Lemma C5_api_same_branching_witness :
  let self :=
    MkChatInterface
      (GeneratorFn (fun m _ => [Some "a"; m])) true true true true true in
  let H : History := [(Some "x", Some "y")] in
  let w := MkWorld [H] [] in
  let w' := MkWorld [H ++ [(Some "hi", None)]] [] in
  (heap w !! 0 = Some H /\ heap w' !! 0 = Some (H ++ [(Some "hi", None)]))
  /\ seen_api <$> out (updates (api_fn self (Some "hi") 0) w)
     = [ (Some "a", Some (H ++ [(Some "hi", Some "a")]));
         (Some "hi", Some (H ++ [(Some "hi", Some "hi")])) ].
Proof.
  intros self H w w'.
  split; [by split|].
  exact (proj1 (proj2
           (C5_api_same_branching self (Some "hi") 0 0 w w' H
              eq_refl eq_refl))).
Defined.

(** ** Aliasing *)

(** C9.  The two API adapters treat the caller's history list
    differently.  [_api_submit_fn] appends [(m, response)] to that very
    list and returns it: no list is allocated.  [_api_stream_fn] never
    changes it: at every yield and at the end the caller's list still
    holds [H], and every history it yields is a list that did not exist
    before the call, distinct from the others.  [_stream_fn] likewise
    leaves the list it is given untouched and yields new lists only. *)
Theorem C9_api_aliasing (f : Str -> History -> Str)
    (g : Str -> History -> Generator) (m : Str) (l : loc) (w : World)
    (H : History) :
  heap w !! l = Some H ->
  (res (_api_submit_fn f m l w) = inr (f m H, l)
   /\ heap (world (_api_submit_fn f m l w)) !! l = Some (H ++ [(m, f m H)])
   /\ length (heap (world (_api_submit_fn f m l w))) = length (heap w))
  /\ (heap (world (_api_stream_fn g m l w)) !! l = Some H
      /\ Forall (fun yw : (Str * loc) * World =>
                   heap yw.2 !! l = Some H
                   /\ length (heap w) <= yw.1.2
                   /\ yw.1.2 <> l)
                (out (_api_stream_fn g m l w))
      /\ NoDup ((fun yw : (Str * loc) * World => yw.1.2)
                  <$> out (_api_stream_fn g m l w)))
  /\ (heap (world (_stream_fn g m l w)) !! l = Some H
      /\ Forall (fun yw : (loc * loc) * World =>
                   heap yw.2 !! l = Some H
                   /\ length (heap w) <= yw.1.1
                   /\ yw.1.1 <> l)
                (out (_stream_fn g m l w))).
Proof.
  intros E.
  assert (Hl : l < length (heap w)) by (by eapply lookup_lt_Some).
  split; [|split].
  - rewrite (api_submit_fn_run f m l w H E). cbn.
    rewrite length_insert. split_and!; try done.
    by apply lookup_stored with (H := H).
  - rewrite (api_stream_fn_run g m l w H E). cbn zeta. cbn [out world].
    split_and!.
    + by apply allocs_frame.
    + apply Forall_forall. intros [[r u] wi] Hin. cbn.
      pose proof Hin as Hfr.
      eapply (emitted_frame _ _ _ _ l H) in Hfr as [Hfr _]; [|done].
      apply (emitted_fresh _ snd) in Hin; [|done]. cbn in Hin.
      split_and!; [done | lia | lia].
    + rewrite (emitted_locs _ snd) by done. apply NoDup_seq.
  - rewrite (stream_fn_run g m l w H E). cbn zeta. cbn [out world].
    assert (E1 : heap (MkWorld (heap w ++ [removelast H])
                               (calls w ++ [(m, removelast H)])) !! l
                 = Some H) by (by apply lookup_old).
    split.
    + by apply allocs_frame.
    + apply Forall_forall. intros [[a b] wi] Hin. cbn.
      pose proof Hin as Hfr.
      eapply (emitted_frame _ _ _ _ l H) in Hfr as [Hfr _]; [|done].
      apply (emitted_fresh _ fst) in Hin; [|done]. cbn in Hin.
      rewrite length_app in Hin. cbn in Hin.
      split_and!; [done | lia | lia].
Qed.

Lemma C9_api_aliasing_witness :
  let f : Str -> History -> Str := fun m _ => m in
  let g : Str -> History -> Generator := fun m _ => [Some "a"; m] in
  let H : History := [(Some "x", Some "y")] in
  let w := MkWorld [H] [] in
  heap w !! 0 = Some H
  /\ heap (world (_api_submit_fn f (Some "hi") 0 w)) !! 0
     = Some (H ++ [(Some "hi", Some "hi")])
  /\ heap (world (_api_stream_fn g (Some "hi") 0 w)) !! 0 = Some H.
Proof.
  intros f g H w.
  pose proof (C9_api_aliasing f g (Some "hi") 0 w H eq_refl) as HC.
  split; [reflexivity|].
  split; [exact (proj1 (proj2 (proj1 HC)))
         | exact (proj1 (proj1 (proj2 HC)))].
Defined.

(** ** The examples handlers *)

(** C10.  Both examples handlers call [fn] on a new empty list, whatever
    the store holds.  [_examples_fn] returns the one-turn list
    [[(m, fn(m, []))]].  [_examples_stream_fn] yields one list
    [[(m, r)]] per element [r] of [fn(m, [])] and has no fallback: when the
    generator yields nothing it yields nothing, whereas [_stream_fn] on
    the same empty stream emits one update. *)
Theorem C10_examples (f : Str -> History -> Str)
    (g : Str -> History -> Generator) (m : Str) (w : World) :
  (res (_examples_fn f m w) = inr (S (length (heap w)))
   /\ deref (world (_examples_fn f m w)) (S (length (heap w)))
      = Some [(m, f m [])]
   /\ calls (world (_examples_fn f m w)) = calls w ++ [(m, [])])
  /\ (res (_examples_stream_fn g m w) = inr tt
      /\ seen_list <$> out (_examples_stream_fn g m w)
         = (fun r => Some [(m, r)]) <$> g m []
      /\ length (out (_examples_stream_fn g m w)) = length (g m [])
      /\ calls (world (_examples_stream_fn g m w)) = calls w ++ [(m, [])])
  /\ (g m [] = [] ->
      out (_examples_stream_fn g m w) = []
      /\ length (out (_stream_fn g m (length (heap w))
                                (alloc [(m, None)] w))) = 1).
Proof.
  split_and!.
  - by rewrite examples_fn_run.
  - rewrite examples_fn_run. unfold deref. cbn.
    rewrite lookup_app_r by lia.
    by replace (S (length (heap w)) - length (heap w)) with 1 by lia.
  - by rewrite examples_fn_run.
  - by rewrite examples_stream_fn_run.
  - rewrite examples_stream_fn_run. cbn zeta. cbn [out].
    apply emitted_seen_list.
  - rewrite examples_stream_fn_run. cbn zeta. cbn [out].
    apply emitted_length.
  - by rewrite examples_stream_fn_run.
  - intros Hg. split.
    + rewrite examples_stream_fn_run. cbn zeta. cbn [out]. by rewrite Hg.
    + rewrite (stream_fn_run g m _ _ [(m, None)]) by apply lookup_fresh.
      cbn zeta. cbn [out removelast]. rewrite emitted_length. by rewrite Hg.
Qed.

Lemma C10_examples_witness :
  let g : Str -> History -> Generator := fun _ _ => [] in
  let w := MkWorld [[(Some "x", Some "y")]] [(Some "x", [])] in
  g (Some "hi") [] = []
  /\ out (_examples_stream_fn g (Some "hi") w) = []
  /\ length (out (_stream_fn g (Some "hi") (length (heap w))
                             (alloc [(Some "hi", None)] w))) = 1.
Proof.
  intros g w. split; [reflexivity|].
  exact (proj2 (proj2 (C10_examples echo_fn g (Some "hi") w)) eq_refl).
Defined.

(** ** Steps of the event chains *)

Lemma then_run (c step : Chain) (s s1 : Session) (w w1 : World) o1 :
  c s w = Ran (inr s1) o1 w1 ->
  then_ c step s w
  = Ran (res (step s1 w1)) (o1 ++ out (step s1 w1)) (world (step s1 w1)).
Proof. intros E. unfold then_. by apply bind_returned. Qed.

Lemma on_returns {O} (inputs : Session -> Handler O)
    (outputs : O -> Session -> Fun Session) (s s' : Session) (w w' : World)
    (f : Fun O) (o : O) ys :
  inputs s = Returns f ->
  f w = Ran (inr o) ys w' ->
  res (outputs o s w') = inr s' ->
  on inputs outputs s w = Ran (inr s') [(s', w')] w'.
Proof.
  intros Ei Ef Eo. unfold on.
  rewrite Ei, (updates_returns _ _ _ _ _ Ef). cbn. by rewrite Eo.
Qed.

Lemma to_chatbot_run (a : loc) (s : Session) (w : World) (H : History) :
  heap w !! a = Some H ->
  to_chatbot a s w
  = Ran (inr (MkSession (textbox s) H (saved_input s) (chatbot_state s)))
        [] w.
Proof. intros E. unfold to_chatbot. step contents_run. reflexivity. Qed.

Lemma chatbot_chatbot_state_run (a b : loc) (s : Session) (w : World)
    (H : History) :
  heap w !! a = Some H ->
  chatbot_chatbot_state (a, b) s w
  = Ran (inr (MkSession (textbox s) H (saved_input s) b)) [] w.
Proof.
  intros E. unfold chatbot_chatbot_state. cbn [fst snd].
  step to_chatbot_run. reflexivity.
Qed.

Lemma clear_and_save_step (s : Session) (w : World) :
  let s1 := MkSession (Some "") (chatbot s) (textbox s) (chatbot_state s) in
  on (fun s => Returns (_clear_and_save_textbox (textbox s)))
     textbox_saved_input s w
  = Ran (inr s1) [(s1, w)] w.
Proof. reflexivity. Qed.

Lemma display_input_step (s : Session) (w : World) (H : History) :
  heap w !! chatbot_state s = Some H ->
  let H2 := H ++ [(saved_input s, None)] in
  let w2 := MkWorld (<[chatbot_state s := H2]> (heap w)) (calls w) in
  let s2 := MkSession (textbox s) H2 (saved_input s) (chatbot_state s) in
  on (fun s => Returns (_display_input (saved_input s) (chatbot_state s)))
     chatbot_chatbot_state s w
  = Ran (inr s2) [(s2, w2)] w2.
Proof.
  intros E H2 w2 s2.
  eapply on_returns; [reflexivity | by apply display_input_run |].
  rewrite (chatbot_chatbot_state_run _ _ _ _ H2); [done|].
  by apply lookup_stored with (H := H).
Qed.

Lemma submit_step_plain (self : ChatInterface) (f : Str -> History -> Str)
    (s : Session) (w : World) (Hin : History) :
  fn self = Plain f ->
  heap w !! chatbot_state s = Some Hin ->
  let m := saved_input s in
  let H := removelast Hin in
  let H3 := H ++ [(m, f m H)] in
  let w3 := MkWorld (heap w ++ [H3]) (calls w ++ [(m, H)]) in
  let s3 := MkSession (textbox s) H3 m (length (heap w)) in
  on (fun s => submit_fn self (saved_input s) (chatbot_state s))
     chatbot_chatbot_state s w
  = Ran (inr s3) [(s3, w3)] w3.
Proof.
  intros Ef E m H H3 w3 s3.
  eapply on_returns.
  - unfold submit_fn. by rewrite Ef.
  - by apply submit_fn_run.
  - rewrite (chatbot_chatbot_state_run _ _ _ _ H3); [done|].
    apply lookup_fresh.
Qed.

Lemma commit_all_emitted (c : Str -> History) (w : World) (rs : list Str)
    (s : Session) :
  commit_all chatbot_chatbot_state (emitted (fun _ u => (u, u)) c w rs) s
  = (committed c w rs s, inr (final_commit c w rs s)).
Proof.
  revert w s. induction rs as [|r rs IH]; intros w s; cbn; [done|].
  rewrite (chatbot_chatbot_state_run _ _ _ _ (c r)) by apply lookup_fresh.
  cbn. by rewrite IH.
Qed.

Lemma submit_step_stream (self : ChatInterface)
    (g : Str -> History -> Generator) (s : Session) (w : World)
    (Hin : History) :
  fn self = GeneratorFn g ->
  heap w !! chatbot_state s = Some Hin ->
  let m := saved_input s in
  let H := removelast Hin in
  let w1 := MkWorld (heap w ++ [H]) (calls w ++ [(m, H)]) in
  let rs := responses (g m H) in
  on (fun s => submit_fn self (saved_input s) (chatbot_state s))
     chatbot_chatbot_state s w
  = Ran (inr (final_commit (with_turn H m) w1 rs s))
        (committed (with_turn H m) w1 rs s)
        (allocs (with_turn H m) w1 rs).
Proof.
  intros Ef E m H w1 rs. unfold on, submit_fn. rewrite Ef. cbn [updates].
  rewrite (stream_fn_run g _ _ w Hin E). cbn zeta. cbn [res out world].
  by rewrite commit_all_emitted.
Qed.

Lemma committed_chatbots (c : Str -> History) (w : World) (rs : list Str)
    (s : Session) :
  (fun c : Session * World => chatbot c.1) <$> committed c w rs s = c <$> rs.
Proof.
  revert w s. induction rs as [|r rs IH]; intros w s; cbn; [done|].
  by rewrite IH.
Qed.

Lemma final_commit_snoc (c : Str -> History) (w : World) (rs : list Str)
    (r : Str) (s : Session) :
  final_commit c w (rs ++ [r]) s
  = MkSession (textbox s) (c r) (saved_input s) (length (heap w) + length rs).
Proof.
  revert w s. induction rs as [|r0 rs IH]; intros w s; cbn.
  - by rewrite Nat.add_0_r.
  - rewrite IH. cbn. rewrite length_app. cbn. f_equal. lia.
Qed.

Lemma allocs_last (c : Str -> History) (w : World) (rs : list Str)
    (r : Str) :
  heap (allocs c w (rs ++ [r])) !! (length (heap w) + length rs)
  = Some (c r).
Proof.
  cbn. rewrite fmap_app, app_assoc. cbn.
  rewrite <- (length_fmap c rs), <- length_app.
  apply lookup_fresh.
Qed.

Lemma responses_last (gen : Generator) :
  exists rs r, responses gen = rs ++ [r] /\ last (responses gen) = Some r.
Proof.
  destruct (last (responses gen)) as [r|] eqn:E.
  - apply last_Some in E as [rs E]. by exists rs, r.
  - apply last_None in E. by destruct gen.
Qed.

Lemma replies_last (self : ChatInterface) (m : Str) (H : History) :
  exists rs r,
    replies self m H = rs ++ [r] /\ last (replies self m H) = Some r.
Proof.
  unfold replies. destruct (fn self) as [f | g].
  - by exists [], (f m H).
  - apply responses_last.
Qed.

Lemma or_empty_str (m : string) : or_empty (Some m) = Some m.
Proof.
  unfold or_empty, truthy.
  by destruct (String.eqb_spec m ""); subst.
Qed.

Lemma delete_prev_step (s : Session) (w : World) (H : History) (m r : Str) :
  heap w !! chatbot_state s = Some (H ++ [(m, r)]) ->
  let w1 := MkWorld (<[chatbot_state s := H]> (heap w)) (calls w) in
  let s1 := MkSession (textbox s) H (or_empty m) (chatbot_state s) in
  on (fun s => Returns (_delete_prev_fn (chatbot_state s)))
     chatbot_saved_input_chatbot_state s w
  = Ran (inr s1) [(s1, w1)] w1.
Proof.
  intros E w1 s1.
  eapply on_returns; [reflexivity | by eapply delete_prev_fn_run |].
  unfold chatbot_saved_input_chatbot_state. cbn [fst snd].
  step to_chatbot_run. reflexivity.
Qed.

Lemma delete_prev_step_empty (s : Session) (w : World) :
  heap w !! chatbot_state s = Some [] ->
  let s1 := MkSession (textbox s) [] (Some "") (chatbot_state s) in
  on (fun s => Returns (_delete_prev_fn (chatbot_state s)))
     chatbot_saved_input_chatbot_state s w
  = Ran (inr s1) [(s1, w)] w.
Proof.
  intros E s1.
  eapply on_returns; [reflexivity | by apply delete_prev_fn_empty |].
  unfold chatbot_saved_input_chatbot_state. cbn [fst snd].
  step to_chatbot_run. reflexivity.
Qed.

(** ** The event chains *)

(** C1.  Submitting with a plain [fn]: from a textbox holding [m] and a
    history list holding [H], the three steps of the submit chain end
    normally with the textbox cleared and with the history state, and the
    chat view, holding [H + [(m, fn(m, H))]].  The view shows the pending
    turn [(m, None)] after the second step, and [fn] was called once, on
    [m] and [H], the history without that pending turn. *)
Theorem C1_submit_chain (self : ChatInterface) (f : Str -> History -> Str)
    (s : Session) (w : World) (H : History) :
  fn self = Plain f ->
  heap w !! chatbot_state s = Some H ->
  let m := textbox s in
  let run := submit_event self s w in
  exists s',
    res run = inr s'
    /\ textbox s' = Some ""
    /\ deref (world run) (chatbot_state s') = Some (H ++ [(m, f m H)])
    /\ chatbot s' = H ++ [(m, f m H)]
    /\ calls (world run) = calls w ++ [(m, H)]
    /\ (fun c : Session * World => chatbot c.1) <$> out run
       = [chatbot s; H ++ [(m, None)]; H ++ [(m, f m H)]]
    /\ (fun c : Session * World => deref c.2 (chatbot_state c.1)) <$> out run
       = [Some H; Some (H ++ [(m, None)]); Some (H ++ [(m, f m H)])].
Proof.
  intros Ef E m run. subst run. unfold submit_event.
  erewrite (then_run (then_ _ _)); cycle 1.
  { erewrite then_run by apply clear_and_save_step.
    erewrite display_input_step by exact E. reflexivity. }
  erewrite (submit_step_plain self f);
    [| done | by apply lookup_stored with (H := H)].
  cbn. rewrite removelast_snoc. fold m.
  eexists. split_and!; try reflexivity.
  - apply lookup_fresh.
  - unfold deref. cbn [fmap list_fmap fst snd heap chatbot_state].
    by rewrite E, (lookup_stored _ _ H), lookup_fresh.
Qed.

Lemma C1_submit_chain_witness :
  let self := MkChatInterface (Plain echo_fn) true true true true true in
  let s := MkSession (Some "hi") [] None 0 in
  let w := MkWorld [[]] [] in
  (fn self = Plain echo_fn /\ heap w !! chatbot_state s = Some [])
  /\ exists s',
       res (submit_event self s w) = inr s'
       /\ textbox s' = Some ""
       /\ deref (world (submit_event self s w)) (chatbot_state s')
          = Some [(Some "hi", Some "hi")]
       /\ chatbot s' = [(Some "hi", Some "hi")]
       /\ calls (world (submit_event self s w)) = [(Some "hi", [])]
       /\ (fun c : Session * World => chatbot c.1)
            <$> out (submit_event self s w)
          = [[]; [(Some "hi", None)]; [(Some "hi", Some "hi")]]
       /\ (fun c : Session * World => deref c.2 (chatbot_state c.1))
            <$> out (submit_event self s w)
          = [Some []; Some [(Some "hi", None)];
             Some [(Some "hi", Some "hi")]].
Proof.
  intros self s w. split; [by split|].
  exact (C1_submit_chain self echo_fn s w [] eq_refl eq_refl).
Defined.

(** C6.  Retry on a history ending in the turn [(m, r)]: the chain ends
    normally.  Its first step removes that turn (the view shows the
    history without it) and stages [m]; its second step appends the
    pending turn [(m, None)]; its last step calls [fn] once, on [m] and the
    history without the last turn, and each response it reports is shown
    in place of the last turn.  At the end the history state and the view
    hold the history without the last turn followed by [(m, r')], where
    [r'] is the last response reported: the earlier turns are unchanged. *)
Theorem C6_retry_chain (self : ChatInterface) (s : Session) (w : World)
    (H : History) (m : string) (r : Str) :
  heap w !! chatbot_state s = Some (H ++ [(Some m, r)]) ->
  let run := retry_event self s w in
  let r' := default None (last (replies self (Some m) H)) in
  exists s',
    res run = inr s'
    /\ deref (world run) (chatbot_state s') = Some (H ++ [(Some m, r')])
    /\ chatbot s' = H ++ [(Some m, r')]
    /\ saved_input s' = Some m
    /\ calls (world run) = calls w ++ [(Some m, H)]
    /\ (fun c : Session * World => chatbot c.1) <$> out run
       = [H; H ++ [(Some m, None)]]
         ++ ((fun x => H ++ [(Some m, x)]) <$> replies self (Some m) H).
Proof.
  intros E run r'. subst run. unfold retry_event.
  erewrite (then_run (then_ _ _)); cycle 1.
  { erewrite then_run by (by eapply delete_prev_step).
    erewrite display_input_step
      by (by apply lookup_stored with (H := H ++ [(Some m, r)])).
    reflexivity. }
  cbn [saved_input]. rewrite or_empty_str.
  set (H2 := H ++ [(Some m, None)]).
  set (w2 := MkWorld _ _).
  assert (E2 : heap w2 !! chatbot_state s = Some H2).
  { subst w2. cbn [heap]. rewrite list_insert_insert_eq.
    by apply lookup_stored with (H := H ++ [(Some m, r)]). }
  assert (Hc : calls w2 = calls w) by reflexivity.
  clearbody w2.
  destruct (replies_last self (Some m) H) as (rs & x & Hrs & Hlast).
  subst r'. rewrite Hlast, Hrs. cbn [default].
  unfold replies in Hrs.
  destruct (fn self) as [f | g] eqn:Ef.
  - destruct rs as [|? [|? ?]]; inversion Hrs; subst x.
    erewrite (submit_step_plain self f); [| done | exact E2].
    cbn. subst H2. rewrite removelast_snoc, Hc.
    eexists. split_and!; try reflexivity.
    apply lookup_fresh.
  - erewrite (submit_step_stream self g); [| done | exact E2].
    cbn [saved_input chatbot_state]. subst H2. rewrite removelast_snoc, Hrs.
    cbn [res out world]. rewrite final_commit_snoc.
    eexists. split_and!; try reflexivity.
    + cbn [chatbot_state]. apply allocs_last.
    + cbn. by rewrite Hc.
    + rewrite fmap_app, committed_chatbots. reflexivity.
Qed.

Lemma C6_retry_chain_witness :
  let self :=
    MkChatInterface
      (GeneratorFn (fun m _ => [Some "a"; Some "ab"])) true true true true true in
  let H : History := [(Some "x", Some "y")] in
  let s := MkSession (Some "") (H ++ [(Some "hi", Some "old")]) None 0 in
  let w := MkWorld [H ++ [(Some "hi", Some "old")]] [] in
  heap w !! chatbot_state s = Some (H ++ [(Some "hi", Some "old")])
  /\ exists s',
       res (retry_event self s w) = inr s'
       /\ deref (world (retry_event self s w)) (chatbot_state s')
          = Some (H ++ [(Some "hi", Some "ab")])
       /\ chatbot s' = H ++ [(Some "hi", Some "ab")]
       /\ saved_input s' = Some "hi"
       /\ calls (world (retry_event self s w)) = [(Some "hi", H)]
       /\ (fun c : Session * World => chatbot c.1)
            <$> out (retry_event self s w)
          = [ H; H ++ [(Some "hi", None)];
              H ++ [(Some "hi", Some "a")]; H ++ [(Some "hi", Some "ab")] ].
Proof.
  intros self H s w. split; [reflexivity|].
  exact (C6_retry_chain self s w H "hi" (Some "old") eq_refl).
Defined.

(** C7.  Popping the last turn of an empty history: [_delete_prev_fn]
    raises nothing (the [IndexError] of [pop] is caught), returns the very
    list it was given, still empty, twice, with the empty string as the
    message, and leaves the store as it was.  The undo chain on an empty
    history therefore ends normally with the history empty, the view
    empty and the textbox holding the empty string. *)
Theorem C7_pop_empty_history (s : Session) (w : World) :
  heap w !! chatbot_state s = Some [] ->
  _delete_prev_fn (chatbot_state s) w
  = Ran (inr (chatbot_state s, Some "", chatbot_state s)) [] w
  /\ exists s',
       res (undo_event s w) = inr s'
       /\ world (undo_event s w) = w
       /\ chatbot_state s' = chatbot_state s
       /\ deref (world (undo_event s w)) (chatbot_state s') = Some []
       /\ chatbot s' = []
       /\ saved_input s' = Some ""
       /\ textbox s' = Some "".
Proof.
  intros E. split; [by apply delete_prev_fn_empty|].
  unfold undo_event.
  erewrite then_run by (by apply delete_prev_step_empty).
  cbn. eexists. split_and!; try reflexivity. exact E.
Qed.

Lemma C7_pop_empty_history_witness :
  let s := MkSession (Some "draft") [] None 0 in
  let w := MkWorld [[]] [] in
  heap w !! chatbot_state s = Some []
  /\ _delete_prev_fn (chatbot_state s) w
     = Ran (inr (chatbot_state s, Some "", chatbot_state s)) [] w
  /\ exists s',
       res (undo_event s w) = inr s'
       /\ world (undo_event s w) = w
       /\ chatbot_state s' = chatbot_state s
       /\ deref (world (undo_event s w)) (chatbot_state s') = Some []
       /\ chatbot s' = []
       /\ saved_input s' = Some ""
       /\ textbox s' = Some "".
Proof.
  intros s w. split; [reflexivity|].
  exact (C7_pop_empty_history s w eq_refl).
Defined.

Lemma clear_lambda_run (w : World) :
  clear_lambda w
  = Ran (inr (length (heap w), length (heap w ++ [[]]), None)) []
        (MkWorld ((heap w ++ [[]]) ++ [[]]) (calls w)).
Proof. reflexivity. Qed.

(** C8.  Clear, from any session and any store: its one step ends
    normally with one update, after which the chat view is empty, the
    history state is a list that holds nothing, and the staged input is
    [None]; the response function is not called. *)
Theorem C8_clear_resets (s : Session) (w : World) :
  exists s',
    res (clear_event s w) = inr s'
    /\ chatbot s' = []
    /\ deref (world (clear_event s w)) (chatbot_state s') = Some []
    /\ saved_input s' = None
    /\ calls (world (clear_event s w)) = calls w
    /\ fst <$> out (clear_event s w) = [s'].
Proof.
  unfold clear_event.
  erewrite on_returns; [| reflexivity | apply clear_lambda_run |]; cycle 1.
  { unfold chatbot_chatbot_state_saved_input. cbn [fst snd].
    erewrite bind_returned
      by (apply to_chatbot_run; cbn; apply lookup_old, lookup_fresh).
    reflexivity. }
  eexists. split_and!; try reflexivity. apply lookup_fresh.
Qed.

(** ** The stop button *)

(** C4.  With a stop button and a generator [fn], the three bindings of
    a response chain make this state machine.  When the chain's listener
    fires, submit is hidden and stop is shown.  Both ways out of that
    state leave the same visibility.  When the chain's final step
    completes, its [.then] follow-up shows submit and hides stop (without
    a submit button: it hides stop).  The stop click has one binding,
    without function or outputs, that cancels that final step; the
    cancellation completing runs the same follow-up, so after the click
    the controls are exactly as after a natural completion: from the
    idle visibility, fire then stop, like fire then complete, ends in the
    idle visibility. *)
Theorem C4_stop_controller (self : ChatInterface) (event_trigger : Listener)
    (event_to_cancel : Dependency) (c : Controls) :
  stop_btn self = true ->
  is_generator self = true ->
  let bs := _setup_stop_events self event_trigger event_to_cancel in
  let host := dispatch cancel_completes bs in
  let responding :=
    if submit_btn self then MkControls false true
    else MkControls (submit_visible c) true in
  let reverted :=
    if submit_btn self then idle
    else MkControls (submit_visible c) false in
  host (Fire event_trigger) c = responding
  /\ host (Completed event_to_cancel) c = reverted
  /\ triggered StopBtnClick bs
     = [MkBinding StopBtnClick None [] (Some event_to_cancel)]
  /\ cancelled (triggered StopBtnClick bs) = [event_to_cancel]
  /\ host ClickStop c = reverted
  /\ host ClickStop c = host (Completed event_to_cancel) c
  /\ host (Completed event_to_cancel) (host (Fire event_trigger) idle) = idle
  /\ host ClickStop (host (Fire event_trigger) idle) = idle.
Proof.
  intros Hstop Hgen bs host responding reverted.
  subst bs host responding reverted.
  unfold _setup_stop_events, dispatch, triggered, cancelled, cancel_completes.
  rewrite Hstop, Hgen.
  destruct (submit_btn self), event_trigger, event_to_cancel, c;
    split_and!; reflexivity.
Qed.

Lemma C4_stop_controller_witness :
  let self :=
    MkChatInterface (GeneratorFn (fun m _ => [m])) true true true true true in
  let bs := _setup_stop_events self TextboxSubmit SubmitEvent in
  let host := dispatch cancel_completes bs in
  (stop_btn self = true /\ is_generator self = true)
  /\ host (Fire TextboxSubmit) idle = MkControls false true
  /\ host (Completed SubmitEvent) (MkControls false true) = idle
  /\ host ClickStop (MkControls false true) = idle.
Proof.
  intros self bs host. split; [by split|].
  pose proof (C4_stop_controller self TextboxSubmit SubmitEvent idle
                eq_refl eq_refl) as Hi.
  pose proof (C4_stop_controller self TextboxSubmit SubmitEvent
                (MkControls false true) eq_refl eq_refl) as Hr.
  split_and!.
  - exact (proj1 Hi).
  - exact (proj1 (proj2 Hr)).
  - exact (proj1 (proj2 (proj2 (proj2 (proj2 Hr))))).
Defined.

(** * Further properties of the handlers and of the wiring *)

(** ** The response steps, for any [fn] *)

Lemma committed_consistent (c : Str -> History) (w : World)
    (rs : list Str) (s : Session) :
  Forall (fun c : Session * World => consistent c.1 c.2) (committed c w rs s).
Proof.
  revert w s. induction rs as [|r rs IH]; intros w s; cbn; [done|].
  constructor; [apply lookup_fresh | apply IH].
Qed.

Lemma respond_steps (self : ChatInterface) (c : Chain) (s s1 : Session)
    (w w1 : World) o1 (H1 : History) :
  c s w = Ran (inr s1) o1 w1 ->
  heap w1 !! chatbot_state s1 = Some H1 ->
  let m := saved_input s1 in
  let H2 := H1 ++ [(m, None)] in
  let s2 := MkSession (textbox s1) H2 m (chatbot_state s1) in
  let w2 := MkWorld (<[chatbot_state s1 := H2]> (heap w1)) (calls w1) in
  let r' := default None (last (replies self m H1)) in
  exists sf cs wf,
    then_
      (then_ c
         (on (fun s => Returns (_display_input (saved_input s)
                                               (chatbot_state s)))
             chatbot_chatbot_state))
      (on (fun s => submit_fn self (saved_input s) (chatbot_state s))
          chatbot_chatbot_state) s w
    = Ran (inr sf) (o1 ++ (s2, w2) :: cs) wf
    /\ textbox sf = textbox s1
    /\ saved_input sf = m
    /\ chatbot sf = H1 ++ [(m, r')]
    /\ heap wf !! chatbot_state sf = Some (H1 ++ [(m, r')])
    /\ calls wf = calls w1 ++ [(m, H1)]
    /\ (fun c : Session * World => chatbot c.1) <$> cs
       = (fun x => H1 ++ [(m, x)]) <$> replies self m H1
    /\ Forall (fun c : Session * World => consistent c.1 c.2) cs
    /\ heap wf !! chatbot_state s1 = Some H2
    /\ length (heap w1) <= chatbot_state sf.
Proof.
  intros Ec E1 m H2 s2 w2 r'.
  assert (E2 : heap w2 !! chatbot_state s2 = Some H2)
    by (by apply lookup_stored with (H := H1)).
  assert (Hlen : length (heap w2) = length (heap w1))
    by apply length_insert.
  erewrite (then_run (then_ _ _)); cycle 1.
  { erewrite then_run by exact Ec.
    erewrite display_input_step by exact E1. reflexivity. }
  fold m H2 s2 w2.
  destruct (replies_last self m H1) as (rs & x & Hrs & Hlast).
  subst r'. rewrite Hlast, Hrs. cbn [default].
  unfold replies in Hrs.
  destruct (fn self) as [f | g] eqn:Ef.
  - destruct rs as [|? [|? ?]]; inversion Hrs; subst x.
    erewrite (submit_step_plain self f); [| done | exact E2].
    cbn [saved_input chatbot_state s2]. subst H2.
    rewrite removelast_snoc. cbn [res out world].
    rewrite <- app_assoc. cbn [app].
    do 3 eexists. split; [reflexivity|]. cbn.
    split_and!; try done.
    + apply lookup_fresh.
    + repeat constructor. apply lookup_fresh.
    + apply lookup_old. exact E2.
    + rewrite length_insert. lia.
  - erewrite (submit_step_stream self g); [| done | exact E2].
    cbn [saved_input chatbot_state s2]. subst H2.
    rewrite removelast_snoc, Hrs. cbn [res out world].
    rewrite final_commit_snoc, <- app_assoc. cbn [app].
    do 3 eexists. split; [reflexivity|]. cbn [textbox saved_input chatbot
      chatbot_state s2].
    split_and!; try done.
    + apply allocs_last.
    + apply committed_chatbots.
    + apply committed_consistent.
    + apply allocs_frame. apply lookup_old. exact E2.
    + cbn. rewrite length_app, length_insert. lia.
Qed.

(** ** Popping the last turn *)

(** [_delete_prev_fn] on any list: it never raises; it returns the list
    it was given, twice, which has lost its last turn if it had one; the
    message it stages is the user message of that turn, or the empty
    string when that message is [None] or empty or when there was no turn,
    so it is never [None]; it allocates nothing, calls nothing and leaves
    every other list as it was. *)
Theorem delete_prev_fn_total (l : loc) (w : World) (Hin : History) :
  heap w !! l = Some Hin ->
  let run := _delete_prev_fn l w in
  let staged :=
    match last Hin with
    | Some t => or_empty t.1
    | None => Some ""
    end in
  res run = inr (l, staged, l)
  /\ heap (world run) !! l = Some (removelast Hin)
  /\ is_Some staged
  /\ length (heap (world run)) = length (heap w)
  /\ calls (world run) = calls w
  /\ (forall l' X, l' <> l -> heap w !! l' = Some X ->
        heap (world run) !! l' = Some X).
Proof.
  intros E run staged. subst run staged.
  destruct (last Hin) as [[m r]|] eqn:El.
  - apply last_Some in El as [H ->].
    rewrite (delete_prev_fn_run l w H m r E), removelast_snoc. cbn.
    split_and!; try done.
    + by apply lookup_stored with (H := H ++ [(m, r)]).
    + unfold or_empty, truthy. destruct m as [x|]; [|by eexists].
      destruct (negb (String.eqb x "")); by eexists.
    + apply length_insert.
    + intros l' X Hne HX. by rewrite list_lookup_insert_ne.
  - apply last_None in El. subst Hin.
    rewrite (delete_prev_fn_empty l w E). cbn.
    split_and!; done.
Qed.

Lemma delete_prev_fn_total_witness :
  let w := MkWorld [[(Some "a", Some "b")]; [(Some "x", Some "y"); (None, Some "z")]] [] in
  heap w !! 1 = Some [(Some "x", Some "y"); (None, Some "z")]
  /\ res (_delete_prev_fn 1 w) = inr (1, Some "", 1)
  /\ heap (world (_delete_prev_fn 1 w)) !! 1 = Some [(Some "x", Some "y")].
Proof.
  intros w.
  pose proof (delete_prev_fn_total 1 w _ eq_refl) as HT.
  split; [reflexivity|].
  split; [exact (proj1 HT) | exact (proj1 (proj2 HT))].
Defined.

(** ** The response handlers and the last element of their argument *)

(** [_submit_fn] and [_stream_fn] drop the last element of the list they
    are given without looking at it: whatever the list holds, [fn] is
    called on the list without its last element and every history
    produced is that shorter list followed by [(m, response)].  So a list
    that does not end in a pending turn loses its last turn, and the empty
    list is handled without an exception.  Both work on a copy: the list
    passed in keeps its contents. *)
Theorem response_handlers_drop_last (f : Str -> History -> Str)
    (g : Str -> History -> Generator) (m : Str) (l : loc) (w : World)
    (Hin : History) :
  heap w !! l = Some Hin ->
  let H := removelast Hin in
  (res (_submit_fn f m l w) = inr (length (heap w), length (heap w))
   /\ deref (world (_submit_fn f m l w)) (length (heap w))
      = Some (H ++ [(m, f m H)])
   /\ deref (world (_submit_fn f m l w)) l = Some Hin
   /\ calls (world (_submit_fn f m l w)) = calls w ++ [(m, H)])
  /\ (res (_stream_fn g m l w) = inr tt
      /\ seen_pair <$> out (_stream_fn g m l w)
         = (fun r => (Some (H ++ [(m, r)]), Some (H ++ [(m, r)])))
             <$> responses (g m H)
      /\ deref (world (_stream_fn g m l w)) l = Some Hin
      /\ calls (world (_stream_fn g m l w)) = calls w ++ [(m, H)]).
Proof.
  intros E H. split.
  - rewrite (submit_fn_run f m l w Hin E). unfold deref. cbn.
    split_and!; try done; [apply lookup_fresh | by apply lookup_old].
  - rewrite (stream_fn_run g m l w Hin E). cbn zeta. cbn [res out world].
    split_and!; try done.
    + apply emitted_seen_pair.
    + apply allocs_frame. by apply lookup_old.
Qed.

Lemma response_handlers_drop_last_witness :
  let f : Str -> History -> Str := fun m _ => m in
  let g : Str -> History -> Generator := fun _ _ => [] in
  let w := MkWorld [[(Some "x", Some "y")]] [] in
  heap w !! 0 = Some [(Some "x", Some "y")]
  /\ deref (world (_submit_fn f (Some "hi") 0 w)) 1
     = Some [(Some "hi", Some "hi")]
  /\ seen_pair <$> out (_stream_fn g (Some "hi") 0 w)
     = [(Some [(Some "hi", None)], Some [(Some "hi", None)])].
Proof.
  intros f g w.
  pose proof (response_handlers_drop_last f g (Some "hi") 0 w _ eq_refl)
    as HT.
  split; [reflexivity|].
  split; [exact (proj1 (proj2 (proj1 HT)))
         | exact (proj1 (proj2 (proj2 HT)))].
Defined.

(** ** Submit, for any [fn] *)

Lemma submit_event_steps (self : ChatInterface) (s : Session)
    (w : World) (H : History) :
  heap w !! chatbot_state s = Some H ->
  let m := textbox s in
  let run := submit_event self s w in
  let r' := default None (last (replies self m H)) in
  exists s',
    res run = inr s'
    /\ textbox s' = Some ""
    /\ saved_input s' = m
    /\ chatbot s' = H ++ [(m, r')]
    /\ deref (world run) (chatbot_state s') = Some (H ++ [(m, r')])
    /\ calls (world run) = calls w ++ [(m, H)]
    /\ (fun c : Session * World => chatbot c.1) <$> out run
       = [chatbot s; H ++ [(m, None)]]
         ++ ((fun x => H ++ [(m, x)]) <$> replies self m H)
    /\ (fun c : Session * World => calls c.2) <$> take 2 (out run)
       = [calls w; calls w]
    /\ chatbot_state s' <> chatbot_state s
    /\ deref (world run) (chatbot_state s) = Some (H ++ [(m, None)]).
Proof.
  intros E m run r'. subst run. unfold submit_event.
  destruct (respond_steps self _ s _ w w _ H (clear_and_save_step s w) E)
    as (sf & cs & wf & Erun & Ht & Hs & Hc & Hst & Hcalls & Hview & _
        & Hold & Hnew).
  cbn [saved_input textbox chatbot_state] in *.
  rewrite Erun. cbn [res out world].
  exists sf. split_and!; try done.
  - cbn. by rewrite Hview.
  - apply lookup_lt_Some in E. lia.
Qed.

(** The submit chain with a plain or a generator [fn]: it ends normally
    with the textbox cleared and with the history state and the view
    holding [H + [(m, r')]], [r'] being the last response reported
    ([None] for an empty stream).  The view shows the pending turn before
    [fn] is called (the call log is still unchanged at the first two
    updates), then one history per response.  [fn] is called once, on
    [(m, H)].  The history state ends as a new list: the list it held
    before is left holding the pending turn. *)
Theorem submit_event_any_fn (self : ChatInterface) (s : Session)
    (w : World) (H : History) :
  heap w !! chatbot_state s = Some H ->
  let m := textbox s in
  let run := submit_event self s w in
  let r' := default None (last (replies self m H)) in
  exists s',
    res run = inr s'
    /\ textbox s' = Some ""
    /\ saved_input s' = m
    /\ chatbot s' = H ++ [(m, r')]
    /\ deref (world run) (chatbot_state s') = Some (H ++ [(m, r')])
    /\ calls (world run) = calls w ++ [(m, H)]
    /\ (fun c : Session * World => chatbot c.1) <$> out run
       = [chatbot s; H ++ [(m, None)]]
         ++ ((fun x => H ++ [(m, x)]) <$> replies self m H)
    /\ (fun c : Session * World => calls c.2) <$> take 2 (out run)
       = [calls w; calls w]
    /\ chatbot_state s' <> chatbot_state s
    /\ deref (world run) (chatbot_state s) = Some (H ++ [(m, None)]).
Proof.
  intros E m run r'. subst run. unfold submit_event.
  destruct (respond_steps self _ s _ w w _ H (clear_and_save_step s w) E)
    as (sf & cs & wf & Erun & Ht & Hs & Hc & Hst & Hcalls & Hview & _
        & Hold & Hnew).
  cbn [saved_input textbox chatbot_state] in *.
  rewrite Erun. cbn [res out world].
  exists sf. split_and!; try done.
  - cbn. by rewrite Hview.
  - apply lookup_lt_Some in E. lia.
Qed.

Lemma submit_event_any_fn_witness :
  let self :=
    MkChatInterface
      (GeneratorFn (fun m _ => [Some "a"; Some "ab"])) true true true true true in
  let H : History := [(Some "x", Some "y")] in
  let s := MkSession (Some "hi") H None 0 in
  let w := MkWorld [H] [] in
  heap w !! chatbot_state s = Some H
  /\ exists s',
       res (submit_event self s w) = inr s'
       /\ textbox s' = Some ""
       /\ chatbot s' = H ++ [(Some "hi", Some "ab")].
Proof.
  intros self H s w. split; [reflexivity|].
  destruct (submit_event_any_fn self s w H eq_refl)
    as (s' & Hr & Ht & _ & Hc & _).
  exists s'. split; [exact Hr | split; [exact Ht | exact Hc]].
Defined.

(** ** Undo and retry *)

Lemma undo_event_run (s : Session) (w : World) (H : History) (m r : Str) :
  heap w !! chatbot_state s = Some (H ++ [(m, r)]) ->
  let w1 := MkWorld (<[chatbot_state s := H]> (heap w)) (calls w) in
  let s1 := MkSession (textbox s) H (or_empty m) (chatbot_state s) in
  let s2 := MkSession (or_empty m) H (or_empty m) (chatbot_state s) in
  undo_event s w = Ran (inr s2) [(s1, w1); (s2, w1)] w1.
Proof.
  intros E w1 s1 s2. unfold undo_event.
  erewrite then_run by (by eapply delete_prev_step).
  reflexivity.
Qed.

(** Undo on a history ending in the turn [(m, r)]: the chain ends
    normally; the history state is the same list, now without that turn,
    the view shows it, and the textbox and the staged input hold
    [m or ""], which is [m] for every string.  [fn] is not called and no
    list is allocated. *)
Theorem undo_event_nonempty (s : Session) (w : World) (H : History)
    (m r : Str) :
  heap w !! chatbot_state s = Some (H ++ [(m, r)]) ->
  let run := undo_event s w in
  exists s',
    res run = inr s'
    /\ chatbot_state s' = chatbot_state s
    /\ deref (world run) (chatbot_state s') = Some H
    /\ chatbot s' = H
    /\ textbox s' = or_empty m
    /\ saved_input s' = or_empty m
    /\ (forall x : string, m = Some x -> textbox s' = Some x)
    /\ calls (world run) = calls w
    /\ length (heap (world run)) = length (heap w).
Proof.
  intros E run. subst run. rewrite (undo_event_run s w H m r E).
  cbn [res world]. eexists. split_and!; try reflexivity.
  - unfold deref. cbn. by apply lookup_stored with (H := H ++ [(m, r)]).
  - intros x ->. apply or_empty_str.
  - cbn. apply length_insert.
Qed.

Lemma undo_event_nonempty_witness :
  let H : History := [(Some "x", Some "y")] in
  let s := MkSession (Some "") (H ++ [(Some "hi", Some "yo")]) None 0 in
  let w := MkWorld [H ++ [(Some "hi", Some "yo")]] [] in
  heap w !! chatbot_state s = Some (H ++ [(Some "hi", Some "yo")])
  /\ exists s',
       res (undo_event s w) = inr s'
       /\ deref (world (undo_event s w)) (chatbot_state s') = Some H
       /\ textbox s' = Some "hi".
Proof.
  intros H s w. split; [reflexivity|].
  destruct (undo_event_nonempty s w H (Some "hi") (Some "yo") eq_refl)
    as (s' & Hr & _ & Hd & _ & _ & _ & Ht & _).
  exists s'. split; [exact Hr | split; [exact Hd | exact (Ht "hi" eq_refl)]].
Defined.

(** Retry on an empty history is not an error and not a no-op.  Its
    first step finds nothing to pop and stages the empty string (the view
    shows the empty history); its second step appends the pending turn
    [("", None)] to the history list, and the view shows it; its last step
    calls [fn] once, on the empty message and the empty history, and each
    response is shown in that turn.  The history ends with the one turn
    [("", r')]; the textbox is not written. *)
Theorem retry_event_empty_history (self : ChatInterface) (s : Session)
    (w : World) :
  heap w !! chatbot_state s = Some [] ->
  let run := retry_event self s w in
  let r' := default None (last (replies self (Some "") [])) in
  exists s',
    res run = inr s'
    /\ deref (world run) (chatbot_state s') = Some [(Some "", r')]
    /\ chatbot s' = [(Some "", r')]
    /\ saved_input s' = Some ""
    /\ textbox s' = textbox s
    /\ calls (world run) = calls w ++ [(Some "", [])]
    /\ (fun c : Session * World => chatbot c.1) <$> out run
       = [[]; [(Some "", None)]]
         ++ ((fun x => [(Some "", x)]) <$> replies self (Some "") [])
    /\ (fun c : Session * World => deref c.2 (chatbot_state s))
         <$> take 2 (out run)
       = [Some []; Some [(Some "", None)]]
    /\ (fun c : Session * World => (saved_input c.1, calls c.2))
         <$> take 2 (out run)
       = [(Some "", calls w); (Some "", calls w)].
Proof.
  intros E run r'. subst run. unfold retry_event.
  destruct (respond_steps self _ s _ w w _ []
              (delete_prev_step_empty s w E) E)
    as (sf & cs & wf & Erun & Ht & Hs & Hc & Hst & Hcalls & Hview & _).
  cbn [saved_input textbox chatbot_state] in *.
  rewrite Erun. cbn [res out world].
  exists sf. split_and!; try done.
  - cbn. by rewrite Hview.
  - unfold deref. cbn. do 2 f_equal; [done|].
    f_equal. by apply lookup_stored with (H := []).
Qed.

Lemma retry_event_empty_history_witness :
  let self := MkChatInterface (Plain echo_fn) true true true true true in
  let s := MkSession (Some "draft") [] None 0 in
  let w := MkWorld [[]] [] in
  heap w !! chatbot_state s = Some []
  /\ exists s',
       res (retry_event self s w) = inr s'
       /\ chatbot s' = [(Some "", Some "")]
       /\ calls (world (retry_event self s w)) = [(Some "", [])]
       /\ (fun c : Session * World => chatbot c.1)
            <$> out (retry_event self s w)
          = [[]; [(Some "", None)]; [(Some "", Some "")]].
Proof.
  intros self s w. split; [reflexivity|].
  destruct (retry_event_empty_history self s w eq_refl)
    as (s' & Hr & _ & Hc & _ & _ & Hcalls & Hview & _).
  exists s'. split_and!; [exact Hr | exact Hc | exact Hcalls | exact Hview].
Defined.

(** ** Two actions in a row *)

Lemma then_res (c step : Chain) (s s1 : Session) (w : World) :
  res (c s w) = inr s1 ->
  res (then_ c step s w) = res (step s1 (world (c s w)))
  /\ world (then_ c step s w) = world (step s1 (world (c s w)))
  /\ out (then_ c step s w) = out (c s w) ++ out (step s1 (world (c s w))).
Proof. intros E. unfold then_, bind. by rewrite E. Qed.

Lemma run_of_res {Y A} (r : Run Y A) (a : A) :
  res r = inr a -> r = Ran (inr a) (out r) (world r).
Proof. intros E. rewrite <- E. symmetry. apply run_eta. Qed.

Lemma retry_event_nonempty (self : ChatInterface) (s : Session) (w : World)
    (H : History) (m : string) (r : Str) :
  heap w !! chatbot_state s = Some (H ++ [(Some m, r)]) ->
  let r' := default None (last (replies self (Some m) H)) in
  exists s',
    res (retry_event self s w) = inr s'
    /\ deref (world (retry_event self s w)) (chatbot_state s')
       = Some (H ++ [(Some m, r')])
    /\ chatbot s' = H ++ [(Some m, r')]
    /\ calls (world (retry_event self s w)) = calls w ++ [(Some m, H)]
    /\ Forall (fun c : Session * World => consistent c.1 c.2)
              (out (retry_event self s w)).
Proof.
  intros E r'. unfold retry_event.
  destruct (respond_steps self _ s _ w _ _ H
              (delete_prev_step s w H (Some m) r E))
    as (sf & cs & wf & Erun & Ht & Hs & Hc & Hst & Hcalls & _ & Hcons & _).
  { cbn. by apply lookup_stored with (H := H ++ [(Some m, r)]). }
  cbn [saved_input textbox chatbot_state heap calls] in Erun, Ht, Hs, Hc,
    Hst, Hcalls.
  rewrite or_empty_str in Erun, Hs, Hc, Hst, Hcalls.
  rewrite Erun. cbn [res out world].
  exists sf. split_and!; try done.
  apply Forall_cons. split.
  { unfold consistent, deref. cbn.
    by apply lookup_stored with (H := H ++ [(Some m, r)]). }
  apply Forall_cons. split; [|exact Hcons].
  unfold consistent, deref. cbn. rewrite list_insert_insert_eq.
  by apply lookup_stored with (H := H ++ [(Some m, r)]).
Qed.

Lemma undo_after (c : Chain) (s s1 : Session) (w : World) (H : History)
    (m r : Str) :
  res (c s w) = inr s1 ->
  deref (world (c s w)) (chatbot_state s1) = Some (H ++ [(m, r)]) ->
  exists s',
    res (then_ c undo_event s w) = inr s'
    /\ deref (world (then_ c undo_event s w)) (chatbot_state s') = Some H
    /\ chatbot s' = H
    /\ textbox s' = or_empty m
    /\ calls (world (then_ c undo_event s w)) = calls (world (c s w)).
Proof.
  intros Hr Hst.
  destruct (then_res c undo_event s s1 w Hr) as (-> & -> & _).
  rewrite (undo_event_run s1 _ H m r Hst). cbn [res world].
  eexists. split_and!; try reflexivity.
  unfold deref. cbn. eapply lookup_stored. exact Hst.
Qed.

Lemma retry_after (self : ChatInterface) (c : Chain) (s s1 : Session)
    (w : World) (H : History) (m : string) (r : Str) :
  res (c s w) = inr s1 ->
  deref (world (c s w)) (chatbot_state s1) = Some (H ++ [(Some m, r)]) ->
  exists s',
    res (then_ c (retry_event self) s w) = inr s'
    /\ deref (world (then_ c (retry_event self) s w)) (chatbot_state s')
       = Some (H ++ [(Some m, default None (last (replies self (Some m) H)))])
    /\ chatbot s'
       = H ++ [(Some m, default None (last (replies self (Some m) H)))]
    /\ calls (world (then_ c (retry_event self) s w))
       = calls (world (c s w)) ++ [(Some m, H)].
Proof.
  intros Hr Hst.
  destruct (then_res c (retry_event self) s s1 w Hr) as (-> & -> & _).
  destruct (retry_event_nonempty self s1 _ H m r Hst)
    as (s2 & Hr2 & Hst2 & Hc2 & Hcalls2 & _).
  exists s2. split_and!; [exact Hr2 | exact Hst2 | exact Hc2 | exact Hcalls2].
Qed.

(** Submit, then undo: the history holds again what it held before the
    submit, the view shows it, and the textbox holds the submitted
    message again (for a message that is a string); [fn] was called once,
    by the submit. *)
Theorem submit_then_undo (self : ChatInterface) (m : string)
    (view : History) (staged : Str) (l : loc) (w : World) (H : History) :
  heap w !! l = Some H ->
  let s := MkSession (Some m) view staged l in
  let run := then_ (submit_event self) undo_event s w in
  exists s',
    res run = inr s'
    /\ deref (world run) (chatbot_state s') = Some H
    /\ chatbot s' = H
    /\ textbox s' = Some m
    /\ calls (world run) = calls w ++ [(Some m, H)].
Proof.
  intros E s run. subst run.
  destruct (submit_event_steps self s w H E)
    as (s1 & Hr & _ & _ & _ & Hst & Hcalls & _).
  destruct (undo_after (submit_event self) s s1 w H _ _ Hr Hst)
    as (s' & Hr' & Hst' & Hc' & Ht' & Hcalls').
  exists s'. split_and!; [exact Hr' | exact Hst' | exact Hc' | |].
  - rewrite Ht'. apply or_empty_str.
  - rewrite Hcalls'. exact Hcalls.
Qed.

Lemma submit_then_undo_witness :
  let self := MkChatInterface (Plain echo_fn) true true true true true in
  let H : History := [(Some "x", Some "y")] in
  let w := MkWorld [H] [] in
  heap w !! 0 = Some H
  /\ exists s',
       res (then_ (submit_event self) undo_event
                  (MkSession (Some "hi") H None 0) w) = inr s'
       /\ chatbot s' = H
       /\ textbox s' = Some "hi".
Proof.
  intros self H w. split; [reflexivity|].
  destruct (submit_then_undo self "hi" H None 0 w H eq_refl)
    as (s' & Hr & _ & Hc & Ht & _).
  exists s'. split; [exact Hr | split; [exact Hc | exact Ht]].
Defined.


(** Submit, then retry: [fn] is called a second time on the same message
    and the same history, and the history has the same turns as after the
    submit alone, with the last response produced by the second call: the
    retry adds no turn. *)
Theorem submit_then_retry (self : ChatInterface) (m : string)
    (view : History) (staged : Str) (l : loc) (w : World) (H : History) :
  heap w !! l = Some H ->
  let s := MkSession (Some m) view staged l in
  let run := then_ (submit_event self) (retry_event self) s w in
  let r' := default None (last (replies self (Some m) H)) in
  exists s',
    res run = inr s'
    /\ deref (world run) (chatbot_state s') = Some (H ++ [(Some m, r')])
    /\ chatbot s' = H ++ [(Some m, r')]
    /\ calls (world run) = calls w ++ [(Some m, H); (Some m, H)].
Proof.
  intros E s run r'. subst run.
  destruct (submit_event_steps self s w H E)
    as (s1 & Hr & _ & _ & _ & Hst & Hcalls & _).
  destruct (retry_after self (submit_event self) s s1 w H m _ Hr Hst)
    as (s' & Hr' & Hst' & Hc' & Hcalls').
  exists s'. split_and!; [exact Hr' | exact Hst' | exact Hc' |].
  rewrite Hcalls', Hcalls, <- app_assoc. reflexivity.
Qed.

Lemma submit_then_retry_witness :
  let self :=
    MkChatInterface
      (GeneratorFn (fun m _ => [Some "a"; Some "ab"])) true true true true true in
  let H : History := [(Some "x", Some "y")] in
  let w := MkWorld [H] [] in
  heap w !! 0 = Some H
  /\ exists s',
       res (then_ (submit_event self) (retry_event self)
                  (MkSession (Some "hi") H None 0) w) = inr s'
       /\ chatbot s' = H ++ [(Some "hi", Some "ab")]
       /\ calls (world (then_ (submit_event self) (retry_event self)
                              (MkSession (Some "hi") H None 0) w))
          = [(Some "hi", H); (Some "hi", H)].
Proof.
  intros self H w. split; [reflexivity|].
  destruct (submit_then_retry self "hi" H None 0 w H eq_refl)
    as (s' & Hr & _ & Hc & Hcalls).
  exists s'. split; [exact Hr | split; [exact Hc | exact Hcalls]].
Defined.

(** ** The view and the history state agree at every update *)

Lemma clear_event_run (s : Session) (w : World) :
  let w' := MkWorld ((heap w ++ [[]]) ++ [[]]) (calls w) in
  let s' := MkSession (textbox s) [] None (length (heap w ++ [[]])) in
  clear_event s w = Ran (inr s') [(s', w')] w'.
Proof.
  intros w' s'. unfold clear_event.
  eapply on_returns; [reflexivity | apply clear_lambda_run |].
  unfold chatbot_chatbot_state_saved_input. cbn [fst snd].
  erewrite bind_returned
    by (apply to_chatbot_run; cbn; apply lookup_old, lookup_fresh).
  reflexivity.
Qed.

Lemma undo_event_empty_run (s : Session) (w : World) :
  heap w !! chatbot_state s = Some [] ->
  let s1 := MkSession (textbox s) [] (Some "") (chatbot_state s) in
  let s2 := MkSession (Some "") [] (Some "") (chatbot_state s) in
  undo_event s w = Ran (inr s2) [(s1, w); (s2, w)] w.
Proof.
  intros E s1 s2. unfold undo_event.
  erewrite then_run by (by apply delete_prev_step_empty).
  reflexivity.
Qed.

Lemma respond_steps_consistent (self : ChatInterface) (c : Chain)
    (s s1 : Session) (w w1 : World) (H1 : History) :
  c s w = Ran (inr s1) [(s1, w1)] w1 ->
  heap w1 !! chatbot_state s1 = Some H1 ->
  chatbot s1 = H1 ->
  let run :=
    then_
      (then_ c
         (on (fun s => Returns (_display_input (saved_input s)
                                               (chatbot_state s)))
             chatbot_chatbot_state))
      (on (fun s => submit_fn self (saved_input s) (chatbot_state s))
          chatbot_chatbot_state) s w in
  (exists s', res run = inr s' /\ consistent s' (world run))
  /\ Forall (fun c : Session * World => consistent c.1 c.2) (out run).
Proof.
  intros Ec E1 Hv run. subst run.
  destruct (respond_steps self c s s1 w w1 _ H1 Ec E1)
    as (sf & cs & wf & Erun & _ & _ & Hc & Hst & _ & _ & Hcons & _).
  rewrite Erun. cbn [res out world]. split.
  - exists sf. split; [done|]. unfold consistent, deref. by rewrite Hc.
  - apply Forall_cons. split.
    { unfold consistent, deref. cbn. by rewrite Hv. }
    apply Forall_cons. split; [|exact Hcons].
    unfold consistent, deref. cbn. by apply lookup_stored with (H := H1).
Qed.

(** When the view shows what the history state holds, it still does after
    every update of the submit, retry, undo and clear chains, whatever
    [fn] is and whether the history is empty or not: each chain ends
    normally and each update writes, to the view and to the state, one
    list with the contents shown.  A response that is interrupted between
    two updates therefore leaves a history that is exactly what the view
    last showed. *)
Theorem chains_keep_view_consistent (self : ChatInterface) (s : Session)
    (w : World) :
  consistent s w ->
  let kept := fun c : Chain =>
    (exists s', res (c s w) = inr s' /\ consistent s' (world (c s w)))
    /\ Forall (fun u : Session * World => consistent u.1 u.2) (out (c s w)) in
  kept (submit_event self) /\ kept (retry_event self)
  /\ kept undo_event /\ kept clear_event.
Proof.
  intros Hs kept. subst kept. cbv beta. unfold consistent, deref in Hs.
  split; [|split; [|split]].
  - unfold submit_event.
    by apply (respond_steps_consistent self _ s _ w w (chatbot s)
                (clear_and_save_step s w)).
  - unfold retry_event.
    destruct (last (chatbot s)) as [[m r]|] eqn:El.
    + apply last_Some in El as [H El]. rewrite El in Hs.
      apply (respond_steps_consistent self _ s _ w _ H
               (delete_prev_step s w H m r Hs)); [|done].
      cbn. by apply lookup_stored with (H := H ++ [(m, r)]).
    + apply last_None in El. rewrite El in Hs.
      by apply (respond_steps_consistent self _ s _ w _ []
                  (delete_prev_step_empty s w Hs)).
  - destruct (last (chatbot s)) as [[m r]|] eqn:El.
    + apply last_Some in El as [H El]. rewrite El in Hs.
      rewrite (undo_event_run s w H m r Hs). cbn [res out world].
      assert (Hl : <[chatbot_state s := H]> (heap w) !! chatbot_state s
                   = Some H)
        by (by apply lookup_stored with (H := H ++ [(m, r)])).
      split; [by eexists | by repeat constructor].
    + apply last_None in El. rewrite El in Hs.
      rewrite (undo_event_empty_run s w Hs). cbn [res out world].
      split; [by eexists | by repeat constructor].
  - rewrite (clear_event_run s w). cbn [res out world].
    assert (Hl : ((heap w ++ [[]]) ++ [[]]) !! length (heap w ++ [[]])
                 = Some ([] : History)) by apply lookup_fresh.
    split; [by eexists | by repeat constructor].
Qed.

Lemma chains_keep_view_consistent_witness :
  let self :=
    MkChatInterface
      (GeneratorFn (fun m _ => [Some "a"; Some "ab"])) true true true true true in
  let H : History := [(Some "x", Some "y")] in
  let s := MkSession (Some "hi") H None 0 in
  let w := MkWorld [H] [] in
  consistent s w
  /\ Forall (fun u : Session * World => consistent u.1 u.2)
            (out (submit_event self s w))
  /\ Forall (fun u : Session * World => consistent u.1 u.2)
            (out (retry_event self s w)).
Proof.
  intros self H s w.
  pose proof (chains_keep_view_consistent self s w eq_refl) as HT.
  split; [reflexivity|].
  split; [exact (proj2 (proj1 HT)) | exact (proj2 (proj1 (proj2 HT)))].
Defined.

(** ** The API chain *)

Lemma textbox_chatbot_state_run (r : Str) (u : loc) (s : Session)
    (w : World) :
  textbox_chatbot_state (r, u) s w
  = Ran (inr (MkSession r (chatbot s) (saved_input s) u)) [] w.
Proof. reflexivity. Qed.

Lemma commit_all_api (c : Str -> History) (w : World) (rs : list Str)
    (s : Session) :
  let run :=
    commit_all textbox_chatbot_state (emitted (fun r u => (r, u)) c w rs) s in
  run.2 = inr (match last rs with
               | Some r => MkSession r (chatbot s) (saved_input s)
                                     (length (heap w) + (length rs - 1))
               | None => s
               end)
  /\ (fun u : Session * World => textbox u.1) <$> run.1 = rs
  /\ Forall (fun u : Session * World =>
               chatbot u.1 = chatbot s /\ saved_input u.1 = saved_input s)
            run.1.
Proof.
  revert w s. induction rs as [|r rs IH]; intros w s; cbn zeta.
  - cbn. done.
  - cbn [emitted commit_all]. rewrite textbox_chatbot_state_run.
    cbn [res].
    set (s1 := MkSession r (chatbot s) (saved_input s) (length (heap w))).
    destruct (IH (alloc (c r) w) s1) as (IH1 & IH2 & IH3).
    cbn [fst snd fmap list_fmap textbox]. rewrite IH1, IH2, last_cons.
    split_and!.
    + destruct (last rs) as [r'|] eqn:El.
      * subst s1. cbn. rewrite length_app. cbn. do 2 f_equal.
        apply last_Some in El as [rs' ->]. rewrite length_app. cbn. lia.
      * apply last_None in El. subst rs s1. cbn. do 2 f_equal. lia.
    + done.
    + constructor; [done | exact IH3].
Qed.

Lemma snoc_neq {A} (l : list A) (x : A) : l ++ [x] <> l.
Proof.
  intros E. apply (f_equal length) in E. rewrite length_app in E.
  cbn in E. lia.
Qed.

(** The API chain, for any [fn], on a textbox holding [m] and a history
    list holding [H]: it ends normally; each update puts the response in
    the textbox, the last one being [r']; the history state ends holding
    [H + [(m, r')]]; [fn] is called once, on [(m, H)].  The chat view and
    the staged input are never written: after an API call the view no
    longer shows what the history state holds. *)
Theorem api_event_leaves_view (self : ChatInterface) (s : Session)
    (w : World) (H : History) :
  heap w !! chatbot_state s = Some H ->
  let m := textbox s in
  let run := api_event self s w in
  let r' := default None (last (replies self m H)) in
  exists s',
    res run = inr s'
    /\ textbox s' = r'
    /\ deref (world run) (chatbot_state s') = Some (H ++ [(m, r')])
    /\ chatbot s' = chatbot s
    /\ saved_input s' = saved_input s
    /\ (fun u : Session * World => textbox u.1) <$> out run
       = replies self m H
    /\ Forall (fun u : Session * World => chatbot u.1 = chatbot s) (out run)
    /\ calls (world run) = calls w ++ [(m, H)]
    /\ (chatbot s = H -> ~ consistent s' (world run)).
Proof.
  intros E m run r'. subst run r' m.
  unfold api_event, on, replies.
  destruct (fn self) as [f | g] eqn:Ef; unfold api_fn; rewrite Ef.
  - rewrite (updates_returns _ _ _ _ _ (api_submit_fn_run f _ _ w H E)).
    cbn. eexists. split_and!; try reflexivity.
    + unfold deref. cbn. by apply lookup_stored with (H := H).
    + by repeat constructor.
    + intros Hv. unfold consistent, deref. cbn.
      rewrite (lookup_stored _ _ H) by done. rewrite Hv.
      intros [=Hx]. by apply snoc_neq in Hx.
  - cbn [updates]. rewrite (api_stream_fn_run g _ _ w H E).
    cbn zeta. cbn [res out world].
    set (w1 := MkWorld (heap w) (calls w ++ [(textbox s, H)])).
    destruct (commit_all_api (with_turn H (textbox s)) w1
                (responses (g (textbox s) H)) s)
      as (E1 & E2 & E3).
    rewrite E1, E2.
    destruct (responses_last (g (textbox s) H)) as (rs & x & Hrs & Hlast).
    rewrite Hlast. cbn [default].
    eexists. split_and!; try reflexivity.
    + cbn [chatbot_state]. rewrite Hrs.
      replace (length (rs ++ [x]) - 1) with (length rs)
        by (rewrite length_app; cbn; lia).
      apply allocs_last.
    + eapply Forall_impl; [exact E3|]. by intros u [? _].
    + intros Hv. unfold consistent. cbn [chatbot_state chatbot].
      rewrite Hrs.
      replace (length (rs ++ [x]) - 1) with (length rs)
        by (rewrite length_app; cbn; lia).
      unfold deref. rewrite allocs_last, Hv.
      intros [=Hx]. by apply snoc_neq in Hx.
Qed.

Lemma api_event_leaves_view_witness :
  let self := MkChatInterface (Plain echo_fn) true true true true true in
  let H : History := [(Some "x", Some "y")] in
  let s := MkSession (Some "hi") H None 0 in
  let w := MkWorld [H] [] in
  heap w !! chatbot_state s = Some H
  /\ exists s',
       res (api_event self s w) = inr s'
       /\ textbox s' = Some "hi"
       /\ deref (world (api_event self s w)) (chatbot_state s')
          = Some (H ++ [(Some "hi", Some "hi")])
       /\ chatbot s' = H.
Proof.
  intros self H s w. split; [reflexivity|].
  destruct (api_event_leaves_view self s w H eq_refl)
    as (s' & Hr & Ht & Hd & Hc & _).
  exists s'. split_and!; [exact Hr | exact Ht | exact Hd | exact Hc].
Defined.

(** ** The stop bindings of the whole wiring *)

(** Without a stop button, or with a plain [fn], [_setup_events]
    registers no stop binding for any chain: whatever happens, the
    visibility of the buttons does not change. *)
Theorem stop_events_disabled (self : ChatInterface) (e : Event)
    (c : Controls) (then_after_cancel : bool) :
  stop_btn self && is_generator self = false ->
  stop_events self = []
  /\ dispatch then_after_cancel (stop_events self) e c = c.
Proof.
  intros Hoff.
  assert (E : stop_events self = []).
  { unfold stop_events, _setup_stop_events. rewrite Hoff.
    by destruct (submit_btn self), (retry_btn self). }
  rewrite E. split; [done|].
  by destruct e, then_after_cancel.
Qed.

Lemma stop_events_disabled_witness :
  let self := MkChatInterface (Plain echo_fn) true true true true true in
  stop_btn self && is_generator self = false
  /\ stop_events self = []
  /\ dispatch true (stop_events self) (Fire TextboxSubmit) idle = idle.
Proof.
  intros self. split; [reflexivity|].
  exact (stop_events_disabled self (Fire TextboxSubmit) idle true eq_refl).
Defined.

(** With a stop button and a generator [fn], in the whole wiring of
    [_setup_events]: a listener whose chain is bound hides submit and
    shows stop when it fires, and the completion of that chain shows
    submit and hides stop (without a submit button only the stop button
    is touched); a listener whose button is absent does nothing.  From
    the idle visibility, firing and then completing returns to the idle
    visibility.  The stop click cancels the final step of every bound
    chain, and when the host runs the follow-ups of cancelled steps the
    controls end as after a completion. *)
Theorem stop_events_wiring (self : ChatInterface) (l : Listener)
    (c : Controls) (then_after_cancel : bool) :
  stop_btn self = true ->
  is_generator self = true ->
  let bs := stop_events self in
  let responding :=
    if submit_btn self then MkControls false true
    else MkControls (submit_visible c) true in
  let reverted :=
    if submit_btn self then idle
    else MkControls (submit_visible c) false in
  dispatch then_after_cancel bs (Fire l) c
  = (if wired self l then responding else c)
  /\ dispatch then_after_cancel bs (Completed (dep_of l)) c
     = (if wired self l then reverted else c)
  /\ dispatch then_after_cancel bs (Completed (dep_of l))
       (dispatch then_after_cancel bs (Fire l) idle) = idle
  /\ cancelled (triggered StopBtnClick bs)
     = [SubmitEvent]
       ++ (if submit_btn self then [ClickEvent] else [])
       ++ (if retry_btn self then [RetryEvent] else [])
  /\ dispatch true bs ClickStop c = reverted.
Proof.
  intros Hstop Hgen bs responding reverted. subst bs responding reverted.
  unfold stop_events, _setup_stop_events, wired.
  rewrite Hstop, Hgen.
  destruct (submit_btn self), (retry_btn self), l, c, then_after_cancel;
    split_and!; reflexivity.
Qed.

Lemma stop_events_wiring_witness :
  let self :=
    MkChatInterface (GeneratorFn (fun m _ => [m])) true true false true true in
  (stop_btn self = true /\ is_generator self = true)
  /\ dispatch false (stop_events self) (Fire SubmitBtnClick) idle
     = MkControls false true
  /\ dispatch false (stop_events self) (Fire RetryBtnClick) idle = idle.
Proof.
  intros self. split; [by split|].
  split.
  - exact (proj1 (stop_events_wiring self SubmitBtnClick idle false
                    eq_refl eq_refl)).
  - exact (proj1 (stop_events_wiring self RetryBtnClick idle false
                    eq_refl eq_refl)).
Defined.

(** ** The buttons of [__init__] *)

Section InitProperties.
Context {Host HostError : Type}.
Variable render : nat -> Host -> HostError + Host.
Variable register : nat -> Host -> Host.

Local Abbreviation State := (Init.State Host).
Local Abbreviation Error := (Init.Error HostError).
Local Abbreviation setup_submit_btn :=
  (Init.setup_submit_btn Host HostError render register).
Local Abbreviation setup_stop_btn :=
  (Init.setup_stop_btn Host HostError render register).
Local Abbreviation setup_btn := (Init.setup_btn Host HostError render register).
Local Abbreviation setup_row := (Init.setup_row Host HostError render register).
Local Abbreviation setup_buttons :=
  (Init.setup_buttons Host HostError render register).
Local Abbreviation construct := (Init.construct Host HostError render register).

(** One button: the three ways a set-up step can go. *)
Ltac setup_cases v :=
  destruct v as [|s|b|[|]];
  unfold Init.setup_submit_btn, Init.setup_stop_btn, Init.setup_btn,
         Init.do_render, Init.new_button;
  cbn [Init.is_true Init.rejected Init.is_button];
  try destruct (negb (String.eqb s "")) eqn:Es;
  try destruct (render b _) as [?|?].

Lemma setup_submit_btn_ok (v v' : Init.Value) (st st' : State) :
  setup_submit_btn v st = inr (v', st') ->
  Init.rejected v = false /\ Init.is_true v' = Init.is_true v.
Proof.
  setup_cases v; intros [= <- <-]; cbn; by rewrite ?Es.
Qed.

Lemma setup_stop_btn_ok (v v' : Init.Value) (st st' : State) :
  setup_stop_btn v st = inr (v', st') ->
  Init.rejected v = false /\ Init.is_true v' = Init.is_true v.
Proof.
  setup_cases v; intros [= <- <-]; cbn; by rewrite ?Es.
Qed.

Lemma setup_btn_ok (v v' : Init.Value) (st st' : State) :
  setup_btn v st = inr (v', st') ->
  Init.rejected v = false /\ Init.is_true v' = Init.is_true v.
Proof.
  setup_cases v; intros [= <- <-]; cbn; by rewrite ?Es.
Qed.

Lemma setup_submit_btn_plain (v : Init.Value) (st : State) :
  Init.is_button v = false ->
  if Init.rejected v
  then setup_submit_btn v st = inl Init.SubmitBtnError
  else exists v' st', setup_submit_btn v st = inr (v', st').
Proof. setup_cases v; intros Hb; try done; by do 2 eexists. Qed.

Lemma setup_stop_btn_plain (v : Init.Value) (st : State) :
  Init.is_button v = false ->
  if Init.rejected v
  then setup_stop_btn v st = inl Init.StopBtnError
  else exists v' st', setup_stop_btn v st = inr (v', st').
Proof. setup_cases v; intros Hb; try done; by do 2 eexists. Qed.

Lemma setup_btn_plain (v : Init.Value) (st : State) :
  Init.is_button v = false ->
  if Init.rejected v
  then setup_btn v st = inl Init.AnyBtnError
  else exists v' st', setup_btn v st = inr (v', st').
Proof. setup_cases v; intros Hb; try done; by do 2 eexists. Qed.

Lemma setup_submit_btn_rejected (v : Init.Value) (st : State) :
  Init.rejected v = true -> setup_submit_btn v st = inl Init.SubmitBtnError.
Proof. by setup_cases v. Qed.

(** Success, read backwards through the five steps. *)
Lemma construct_ok (fn : ResponseFn) (a b c d e : Init.Value)
    (st st' : State) (self : ChatInterface) :
  construct fn a b c d e st = inr (self, st') ->
  (Init.rejected a = false /\ Init.rejected b = false
   /\ Init.rejected c = false /\ Init.rejected d = false
   /\ Init.rejected e = false)
  /\ self = MkChatInterface fn (Init.is_true a) (Init.is_true b)
              (Init.is_true c) (Init.is_true d) (Init.is_true e).
Proof.
  unfold Init.construct, Init.setup_buttons.
  destruct (setup_submit_btn a st) as [?|[a' st1]] eqn:Ea; [done|].
  destruct (setup_stop_btn b st1) as [?|[b' st2]] eqn:Eb; [done|].
  cbn [Init.setup_row app].
  destruct (setup_btn c st2) as [?|[c' st3]] eqn:Ec; [done|].
  destruct (setup_btn d st3) as [?|[d' st4]] eqn:Ed; [done|].
  destruct (setup_btn e st4) as [?|[e' st5]] eqn:Ee; [done|].
  cbn. intros [= <- <-].
  apply setup_submit_btn_ok in Ea as [-> ->].
  apply setup_stop_btn_ok in Eb as [-> ->].
  apply setup_btn_ok in Ec as [-> ->].
  apply setup_btn_ok in Ed as [-> ->].
  apply setup_btn_ok in Ee as [-> ->].
  done.
Qed.

(** What [__init__] does with its five button parameters, whatever the
    host's [render] does.  If it succeeds, no parameter was true without
    being a [Button] or a string, and each button attribute is true (the
    button is there for the event wiring) exactly when the parameter was:
    [None], the empty string and any other false value are kept and count
    as no button.  If some parameter is true without being a [Button] or
    a string, it raises; for [submit_btn] it is the [ValueError] of that
    parameter.  When no parameter is a [Button] (nothing is rendered)
    the outcome is fully determined: the [ValueError] of the first such
    parameter in the order submit, stop, retry, undo, clear, and success
    when there is none. *)
Theorem construct_buttons (fn : ResponseFn)
    (submit_btn stop_btn retry_btn undo_btn clear_btn : Init.Value)
    (st : State) :
  let result :=
    construct fn submit_btn stop_btn retry_btn undo_btn clear_btn st in
  let built :=
    MkChatInterface fn (Init.is_true submit_btn) (Init.is_true stop_btn)
      (Init.is_true retry_btn) (Init.is_true undo_btn)
      (Init.is_true clear_btn) in
  let any_rejected :=
    Init.rejected submit_btn || Init.rejected stop_btn
    || Init.rejected retry_btn || Init.rejected undo_btn
    || Init.rejected clear_btn in
  let any_button :=
    Init.is_button submit_btn || Init.is_button stop_btn
    || Init.is_button retry_btn || Init.is_button undo_btn
    || Init.is_button clear_btn in
  (forall self st', result = inr (self, st') ->
     any_rejected = false /\ self = built)
  /\ (any_rejected = true -> exists err, result = inl err)
  /\ (Init.rejected submit_btn = true ->
      result = inl Init.SubmitBtnError)
  /\ (any_button = false ->
      sum_map id fst result
      = if Init.rejected submit_btn then inl Init.SubmitBtnError
        else if Init.rejected stop_btn then inl Init.StopBtnError
        else if Init.rejected retry_btn then inl Init.AnyBtnError
        else if Init.rejected undo_btn then inl Init.AnyBtnError
        else if Init.rejected clear_btn then inl Init.AnyBtnError
        else inr built).
Proof.
  intros result built any_rejected any_button.
  assert (Hok : forall self st', result = inr (self, st') ->
                  any_rejected = false /\ self = built).
  { intros self st' E. subst any_rejected built.
    apply construct_ok in E as [(Ha & Hb & Hc & Hd & He) ->].
    by rewrite Ha, Hb, Hc, Hd, He. }
  split_and!.
  - exact Hok.
  - intros Hrej. destruct result as [err|[self st']] eqn:E; [by eexists|].
    destruct (Hok self st' eq_refl) as [Hno _]. congruence.
  - intros Hrej. subst result. unfold Init.construct, Init.setup_buttons.
    by rewrite setup_submit_btn_rejected.
  - intros Hnb. subst any_button.
    apply orb_false_elim in Hnb as [Hnb He].
    apply orb_false_elim in Hnb as [Hnb Hd].
    apply orb_false_elim in Hnb as [Hnb Hc].
    apply orb_false_elim in Hnb as [Ha Hb].
    subst result built. unfold Init.construct, Init.setup_buttons.
    pose proof (setup_submit_btn_plain submit_btn st Ha) as Pa.
    destruct (Init.rejected submit_btn); [by rewrite Pa|].
    destruct Pa as (a' & st1 & Ea). rewrite Ea.
    pose proof (setup_stop_btn_plain stop_btn st1 Hb) as Pb.
    destruct (Init.rejected stop_btn); [by rewrite Pb|].
    destruct Pb as (b' & st2 & Eb). rewrite Eb.
    cbn [Init.setup_row app].
    pose proof (setup_btn_plain retry_btn st2 Hc) as Pc.
    destruct (Init.rejected retry_btn); [by rewrite Pc|].
    destruct Pc as (c' & st3 & Ec). rewrite Ec.
    pose proof (setup_btn_plain undo_btn st3 Hd) as Pd.
    destruct (Init.rejected undo_btn); [by rewrite Pd|].
    destruct Pd as (d' & st4 & Ed). rewrite Ed.
    pose proof (setup_btn_plain clear_btn st4 He) as Pe.
    destruct (Init.rejected clear_btn); [by rewrite Pe|].
    destruct Pe as (e' & st5 & Ee). rewrite Ee.
    cbn.
    apply setup_submit_btn_ok in Ea as [_ ->].
    apply setup_stop_btn_ok in Eb as [_ ->].
    apply setup_btn_ok in Ec as [_ ->].
    apply setup_btn_ok in Ed as [_ ->].
    apply setup_btn_ok in Ee as [_ ->].
    done.
Qed.

(** A set-up step keeps the [Button] objects that exist as they are,
    apart from the stop button it hides. *)
Lemma setup_submit_btn_keeps (v v' : Init.Value) (st st' : State) id a :
  setup_submit_btn v st = inr (v', st') ->
  Init.objs st !! id = Some a -> Init.objs st' !! id = Some a.
Proof.
  setup_cases v; intros [= <- <-] Hid; cbn; try done.
  by apply lookup_app_l_Some.
Qed.

Lemma setup_btn_keeps (v v' : Init.Value) (st st' : State) id a :
  setup_btn v st = inr (v', st') ->
  Init.objs st !! id = Some a -> Init.objs st' !! id = Some a.
Proof.
  setup_cases v; intros [= <- <-] Hid; cbn; try done.
  by apply lookup_app_l_Some.
Qed.

Lemma setup_stop_btn_hides (v : Init.Value) (st st' : State) id :
  (forall b, v = Init.VButton b -> is_Some (Init.objs st !! b)) ->
  setup_stop_btn v st = inr (Init.VButton id, st') ->
  Init.visible <$> Init.objs st' !! id = Some (Some false).
Proof.
  intros Hvalid.
  destruct v as [|s|b|[|]]; unfold Init.setup_stop_btn, Init.do_render,
    Init.new_button, Init.set_visible; cbn [Init.is_true Init.host Init.objs].
  - done.
  - destruct (negb (String.eqb s "")); [|done].
    intros [= <- <-]. cbn. by rewrite list_lookup_middle.
  - destruct (render b _) as [?|h]; [done|].
    intros [= <- <-]. cbn. rewrite list_lookup_alter.
    destruct (Hvalid b eq_refl) as [a ->]. by rewrite decide_True.
  - done.
  - done.
Qed.

(** Whenever the buttons are set up without error, [self.buttons] has
    exactly five entries, whatever was passed; and whatever is passed as
    [stop_btn], a string or an existing [Button] that was visible, the
    stop button stored in second place is a [Button] whose [visible] is
    [False] at the end of the set-up. *)
Theorem stop_button_starts_hidden
    (submit_btn stop_btn retry_btn undo_btn clear_btn : Init.Value)
    (st st' : State) (buttons : list Init.Value) :
  (forall b, stop_btn = Init.VButton b -> is_Some (Init.objs st !! b)) ->
  setup_buttons submit_btn stop_btn retry_btn undo_btn clear_btn st
  = inr (buttons, st') ->
  length buttons = 5
  /\ forall id, buttons !! 1 = Some (Init.VButton id) ->
       Init.visible <$> Init.objs st' !! id = Some (Some false).
Proof.
  intros Hvalid. unfold Init.setup_buttons.
  destruct (setup_submit_btn submit_btn st) as [?|[a' st1]] eqn:Ea; [done|].
  destruct (setup_stop_btn stop_btn st1) as [?|[b' st2]] eqn:Eb; [done|].
  cbn [Init.setup_row app].
  destruct (setup_btn retry_btn st2) as [?|[c' st3]] eqn:Ec; [done|].
  destruct (setup_btn undo_btn st3) as [?|[d' st4]] eqn:Ed; [done|].
  destruct (setup_btn clear_btn st4) as [?|[e' st5]] eqn:Ee; [done|].
  intros [= <- <-]. split; [done|].
  intros id [= ->].
  assert (Hv1 : forall b, stop_btn = Init.VButton b ->
                  is_Some (Init.objs st1 !! b)).
  { intros b Hb. destruct (Hvalid b Hb) as [a Ha]. exists a.
    by eapply setup_submit_btn_keeps. }
  pose proof (setup_stop_btn_hides _ _ _ _ Hv1 Eb) as Hh.
  destruct (Init.objs st2 !! id) as [a|] eqn:Hid; [|done].
  erewrite (setup_btn_keeps _ _ _ _ id a Ee); [exact Hh|].
  eapply setup_btn_keeps; [exact Ed|].
  eapply setup_btn_keeps; [exact Ec|]. exact Hid.
Qed.

End InitProperties.

Lemma construct_buttons_witness :
  let render := fun (b : nat) (h : list nat) =>
    if bool_decide (b ∈ h) then inl b else inr (b :: h) in
  let register := fun (b : nat) (h : list nat) => b :: h in
  let st := Init.MkState [] [] in
  Init.is_button (Init.VStr "Submit") || Init.is_button Init.VNone
  || Init.is_button (Init.VOther true) || Init.is_button (Init.VStr "")
  || Init.is_button Init.VNone = false
  /\ sum_map id fst
       (Init.construct (list nat) nat render register (Plain echo_fn)
          (Init.VStr "Submit") Init.VNone (Init.VOther true)
          (Init.VStr "") Init.VNone st)
     = inl Init.AnyBtnError.
Proof.
  intros render register st. split; [reflexivity|].
  exact (proj2 (proj2 (proj2
           (construct_buttons render register (Plain echo_fn)
              (Init.VStr "Submit") Init.VNone (Init.VOther true)
              (Init.VStr "") Init.VNone st))) eq_refl).
Defined.

Lemma stop_button_starts_hidden_witness :
  let render := fun (b : nat) (h : list nat) =>
    if bool_decide (b ∈ h) then inl b else inr (b :: h) in
  let register := fun (b : nat) (h : list nat) => b :: h in
  let shown := Init.MkButton "Halt" None (Some true) None None in
  let st := Init.MkState [shown] [] in
  let st' :=
    Init.MkState
      [ Init.MkButton "Halt" None (Some false) None None;
        Init.MkButton "Submit" (Some "primary") None (Some 1) (Some 150) ]
      [0; 1] in
  let buttons :=
    [ Init.VButton 1; Init.VButton 0; Init.VNone; Init.VStr "";
      Init.VOther false ] in
  ((forall b, Init.VButton 0 = Init.VButton b ->
      is_Some (Init.objs st !! b))
   /\ Init.setup_buttons (list nat) nat render register
        (Init.VStr "Submit") (Init.VButton 0) Init.VNone (Init.VStr "")
        (Init.VOther false) st = inr (buttons, st'))
  /\ length buttons = 5
  /\ Init.visible <$> Init.objs st' !! 0 = Some (Some false).
Proof.
  intros render register shown st st' buttons.
  assert (Hvalid : forall b, Init.VButton 0 = Init.VButton b ->
                     is_Some (Init.objs st !! b)).
  { intros b Hb. injection Hb as <-. exists shown. reflexivity. }
  split; [split; [exact Hvalid | reflexivity]|].
  pose proof (stop_button_starts_hidden render register
                (Init.VStr "Submit") (Init.VButton 0) Init.VNone
                (Init.VStr "") (Init.VOther false) st st' buttons
                Hvalid eq_refl) as [Hlen Hhid].
  split; [exact Hlen | exact (Hhid 0 eq_refl)].
Defined.
